(* ===== verification/_CoqProject ===== *)
-Q . S2P
Prelude.v
PyStr.v
Form.v
TwiML.v
CallState.v
Handlers.v
Server.v
Xml.v
Json.v
Dashboard.v
Threads.v
