(* ===== verification/Prelude.v ===== *)
(** * A verification library for Steve's call screener (src/main.py)

    ** The program

    src/main.py is a Flask application that screens phone calls.  The
    telephony provider posts webhooks: /voice for an incoming call, which
    rejects spam numbers (prefix +100) and VOIP display names or asks the
    caller to speak; /screen with the recognised speech, which stores the
    caller's number and speech in the module-level dict [latest_call] and
    holds the call.  The operator's dashboard ("/") polls /status every
    second and shows the stored number and speech; its two buttons post to
    /connect (status "answered", dial the configured number) and /reject
    (status "rejected", say goodbye).  The views answer with TwiML
    documents, JSON or the page.  All views share the one dict; the
    development server handles requests on threads.

    ** The files, in dependency order

    - [Prelude] (this file): code-point strings [pystr] and literals [lit]
      ([py"..."] in [py_scope]), the hint databases [screener] and
      [screener_rw], the tactics [case_bools], [norm_app], [div_lia].
    - [PyStr]: [str.startswith] ([py_startswith]), [in] ([py_contains]),
      [str.upper] ([py_upper]) over the interface class [PyUpper], which
      fixes the Unicode upper-case mapping on ASCII only; [PyUpper_sample]
      is an instance for concrete runs.  Characterised by [prefix_of] and
      by factors.
    - [Form]: [request.form.get] with and without default (Werkzeug's
      multi-dict, first value wins), the parsing of the url-encoded body
      ([parse_qsl], [unquote]) over the abstract UTF-8 codec
      [Utf8Decode], HTTP methods and requests.
    - [TwiML]: the verb trees of Twilio's [VoiceResponse], the builder
      methods the views call, and the nesting rules of TwiML
      ([response_ok]).
    - [CallState]: [latest_call] as the record [call_state], one function
      per single-key assignment, and the [world] (store and stdout).
    - [Handlers]: one definition per view ([voice], [screen],
      [connect_call], [reject_call], [get_status], [dashboard]), written
      in state-passing style over the world, in the source's statement
      order; an escaping exception is the reply [ServerError] (HTTP 500).
    - [Server]: Flask's URL map and [dispatch] (404, 405, automatic HEAD
      and OPTIONS), requests handled one at a time ([run], [reachable]),
      and the abstract specification of the store as a single-slot
      register over events ([spec_store]).
    - [Xml]: [str(response)]: Twilio's [TwiML.xml] (tags, sorted
      attributes, [str] of ints by well-founded recursion), ElementTree's
      writer with its [str.replace] escapes, and the UTF-8 text writer
      whose [xmlcharrefreplace] handler writes lone surrogates as
      character references ([xml_encode]); a reader of XML 1.0 text
      ([xml_parse], which rejects characters outside XML's [Char]) as the
      specification of the round trip.
    - [Json]: [jsonify] of the store as CPython's [json.dumps] with
      [ensure_ascii] writes it (escapes, lower-case hex, surrogate pairs by
      shifts and masks), and the browser's [JSON.parse] ([js_parse]) on
      the JSON fragment it needs, producing UTF-16 code units.
    - [Dashboard]: the page's script ([fetch_status] with JavaScript's [||]
      truthiness, the buttons and their alerts) and the whole system of
      server and page as the step relation [sys_step]; [async_step]
      lets poll replies arrive late and in any order, as
      [setInterval] with [await fetch] does.
    - [Threads]: every request split into atomic actions on the shared
      dict, the interleaving step relation [tstep] of threaded handling,
      and [lstep], the same threads under the lock the design notes ask
      for, with [serve], the sequential server on an order of the
      requests.

    ** What is proved

    - Form: parsing a url-encoded body undoes the client's [urlencode]
      on ASCII pairs (round trip).
    - Handlers: every branch of [voice] (spam prefix, VOIP name in any
      ASCII case, the screening document, the 500 on a missing From); a
      raw [+] in the From field is decoded as a space and escapes the
      prefix check.
    - Server: refinement of the single-slot register by any sequence of
      requests ([run_refines_spec]); the invariant "no speech implies no
      number" on reachable worlds by rule induction; only POSTs to the
      three action routes write the store; a status poll answers the
      snapshot and changes nothing; the spec's examples after /screen,
      /connect, /reject; GET on webhook routes is 405.
    - Json: [JSON.parse] of the /status body returns the stored strings
      in UTF-16, key by key (round trip), and the body is printable ASCII.
    - Dashboard: a tick displays the store (or the placeholders); a trace
      in which the operator connects a caller other than the one shown;
      with overlapping polls a late reply can leave the page on an older
      caller than the store holds.
    - Xml: the document text reads back as the tree built when its
      strings are XML characters (round trip); every document a request
      gets follows the TwiML rules once the operator's number is set
      (type); the exact texts of the spam rejection and of the connect
      reply (a lone surrogate in a configured number becomes a
      character reference XML forbids); an unset number gives
      [<Number />].
    - Threads: interleavings in which a poll sees a number without
      speech, or the number of one caller with the speech of the previous
      one; with the lock no run deadlocks, every complete run is
      serializable (same world and same snapshots as the sequential
      server on some order of the requests), and every snapshot is a
      store of the sequential server.

    ** Fuel and bounds

    [parse_value] and [parse_members] take fuel; [js_parse] gives the
    length of the text, and [js_parse_flat_obj] shows it is enough (each
    member and each value consumes at least one character).  [xml_parse]
    gives [parse_el] the length of the text too: [el_weight], the fuel an
    element needs, is at most the length of its text
    ([el_weight_length]).  [py_str_int] recurses on [n / 10] by
    well-founded recursion on [N.to_nat n] (Equations).  The thread
    models need no fuel: [pending] counts the actions left and decreases
    at every step.  Code points
    are [N] below 0x110000 ([valid_str]); the escapes work on 16-bit
    values, whose bounds are proved ([hex4_val_hex4], [surrogates_utf16]).

    ** Not modelled

    The HTML markup of the page beyond its two fields, the HTTP listener
    and socket handling, the provider's own call flow (how a held call is
    redirected to /connect or /reject), and the Unicode database beyond
    ASCII and a few letters.  The lock of [lstep] is not in the source:
    it is modelled from the design notes, to show what it would fix.
    The asynchronous page model ([async_step]) handles each request whole
    when it reaches the server; what the threads do inside a request is
    modelled apart, in [Threads], not combined with the page.
*)

From stdpp Require Import base list.
From Stdlib Require Import NArith ZArith String Ascii Lia.

(** Induction over trees nested in lists (TwiML verbs, XML elements)
    gets the hypothesis for every child through [list_all]. *)
Scheme All for list.

(** ** Python strings

    A Python [str] is a sequence of Unicode code points; we model it as a
    list of [N], one code point per element.  Literals of the source
    ('+100', "VOIP", the fixed prompts) are written with [lit], which
    turns an ASCII [string] into its code points. *)

Definition pystr : Type := list N.

Fixpoint lit (s : string) : pystr :=
  match s with
  | EmptyString => []
  | String c r => N_of_ascii c :: lit r
  end.

Declare Scope py_scope.
Delimit Scope py_scope with py.
(** [py"abc"] is the Python literal 'abc'. *)
Notation "'py' s" := (lit s%string) (at level 1, s at level 0, only parsing) : py_scope.
Open Scope py_scope.

(** ** Shared automation *)

Create HintDb screener.
Create Rewrite HintDb screener_rw.

(** Case on every boolean test of the goal and close what follows by
    computation or [lia]. *)
Ltac case_bools :=
  repeat match goal with
  | |- context [if ?b then _ else _] =>
      let E := fresh "E" in destruct b eqn:E
  end.

(** Normalise list concatenations to the right: [(a :: l) ++ m] becomes
    [a :: (l ++ m)] and [(l ++ m) ++ n] becomes [l ++ (m ++ n)]. *)
Ltac norm_app := repeat first [rewrite <-app_assoc | rewrite <-app_comm_cons].

(** Linear arithmetic with division and remainder by constants (the
    bit fields of the JSON escapes): move to [Z], name quotients and
    remainders, then [lia]. *)
Ltac div_lia := zify; Z.to_euclidean_division_equations; lia.

(** ** Generic lemmas on lists and booleans *)

Lemma lit_app (s t : string) : lit (String.append s t) = lit s ++ lit t.
Proof. induction s as [|c s IH]; simpl; [done | by rewrite IH]. Qed.

Lemma lit_length (s : string) : List.length (lit s) = String.length s.
Proof. induction s; simpl; auto. Qed.

(** Every code point of a literal is below 256 (Latin-1). *)
Lemma lit_ascii (s : string) : Forall (fun c => (c < 256)%N) (lit s).
Proof.
  induction s as [|c s IH]; simpl; constructor; auto.
  apply N_ascii_bounded.
Qed.

Lemma flat_map_singleton {A B} (f : A -> B) (l : list A) :
  flat_map (fun x => [f x]) l = map f l.
Proof. induction l as [|x l IH]; simpl; [done | by rewrite IH]. Qed.

Lemma forallb_Forall {A} (f : A -> bool) (l : list A) :
  forallb f l = true -> Forall (fun x => f x = true) l.
Proof.
  induction l as [|x l IH]; cbn; [constructor|].
  intros [Hx Hl]%andb_prop. constructor; auto.
Qed.

#[export] Hint Rewrite lit_app flat_map_app : screener_rw.
#[export] Hint Resolve lit_ascii : screener.

Lemma forallb_flat_map {A B} (f : B -> bool) (g : A -> list B) (l : list A) :
  forallb f (flat_map g l) = forallb (fun x => forallb f (g x)) l.
Proof. induction l as [|x l IH]; cbn; [done | by rewrite forallb_app, IH]. Qed.
