(* ===== verification/PyStr.v ===== *)
(** * The Python string operations the screener uses

    [voice] (src/main.py, line 22) decides on spam with
    [from_number.startswith('+100')] and ["VOIP" in caller_name.upper()];
    its log line formats an optional value with an f-string.  This file
    models those three operations on code-point strings ([pystr]) and
    proves their characterisations: [py_startswith] is [prefix_of],
    [py_contains] is "occurs as a factor", and [py_upper], parametric in
    the per-character mapping through the class [PyUpper], agrees with
    ASCII upper-casing on ASCII text. *)

From stdpp Require Import base list sets.
From Stdlib Require Import NArith String Ascii Lia.
From S2P Require Import Prelude.

#[local] Set Warnings "-clear-no-such-hyp".

(** ** [str.startswith] *)

(** [py_startswith s p] is Python's [s.startswith(p)]. *)
Fixpoint py_startswith (s p : pystr) {struct p} : bool :=
  match p, s with
  | [], _ => true
  | c :: p', d :: s' => N.eqb c d && py_startswith s' p'
  | _ :: _, [] => false
  end.

(** ** The [in] operator on strings *)

(** [py_contains needle hay] is Python's [needle in hay]: the needle
    occurs at some position of the haystack (the empty needle occurs in
    every string, the empty haystack included). *)
Fixpoint py_contains (needle hay : pystr) : bool :=
  py_startswith hay needle ||
  match hay with
  | [] => false
  | _ :: hay' => py_contains needle hay'
  end.

(** ** [str.replace] *)

(** [s.replace(old, new)] for a one-character [old]: every occurrence
    is replaced, left to right. *)
Definition str_replace (old : N) (new s : pystr) : pystr :=
  flat_map (fun c => if decide (c = old) then new else [c]) s.

(** [if old in text: text = text.replace(old, new)]. *)
Definition replace_if (old : N) (new s : pystr) : pystr :=
  if py_contains [old] s then str_replace old new s else s.

(** ** Comparison *)

(** Lexicographic order on code-point strings, as Python compares [str]
    ([a <= b]; used by [sorted] on keys). *)
Fixpoint str_leb (a b : pystr) : bool :=
  match a, b with
  | [], _ => true
  | _ :: _, [] => false
  | x :: a', y :: b' => (x <? y)%N || ((x =? y)%N && str_leb a' b')
  end.

(** ** [str.upper]

    CPython's [str.upper] maps every code point independently to its
    full upper-case mapping (one or more code points: 'ß' becomes "SS")
    and concatenates the results.  The mapping is the Unicode database;
    we keep it abstract as a class whose laws fix it on ASCII, the only
    part the theorems need. *)
Class PyUpper := {
  upper_char : N -> list N;
  upper_char_lower : forall c, (97 <= c <= 122)%N -> upper_char c = [(c - 32)%N];
  upper_char_ascii : forall c, (c < 128)%N -> ~ (97 <= c <= 122)%N -> upper_char c = [c]
}.

Definition py_upper `{PyUpper} (s : pystr) : pystr := flat_map upper_char s.

(** ASCII upper-casing of one code point, the reference for "any case". *)
Definition ascii_upper (c : N) : N :=
  if ((97 <=? c) && (c <=? 122))%N then (c - 32)%N else c.

Definition is_ascii (s : pystr) : Prop := Forall (fun c => (c < 128)%N) s.

(** A sample of the Unicode mapping, enough to run the handlers on
    concrete inputs: ASCII, the Latin-1 lower-case letters, and three
    letters whose upper case is ASCII ('ß' to "SS", dotless 'ı' to 'I',
    long 'ſ' to 'S'), all as CPython maps them.  Other code points are
    left unchanged here. *)
Definition upper_sample (c : N) : list N :=
  if ((97 <=? c) && (c <=? 122))%N then [(c - 32)%N]
  else if ((224 <=? c) && (c <=? 254) && negb (c =? 247))%N then [(c - 32)%N]
  else if (c =? 255)%N then [376%N]
  else if (c =? 223)%N then [83%N; 83%N]
  else if (c =? 305)%N then [73%N]
  else if (c =? 383)%N then [83%N]
  else [c].

#[export] Program Instance PyUpper_sample : PyUpper := {| upper_char := upper_sample |}.
Next Obligation.
  intros c Hc. unfold upper_sample.
  destruct (N.leb_spec 97 c), (N.leb_spec c 122); simpl; [done | lia ..].
Qed.
Next Obligation.
  intros c Hc Hn. unfold upper_sample.
  destruct (N.leb_spec 97 c), (N.leb_spec c 122); simpl; [lia | ..];
  repeat match goal with
  | |- context [N.leb ?a ?b] => destruct (N.leb_spec a b); simpl
  | |- context [N.eqb ?a ?b] => destruct (N.eqb_spec a b); simpl
  end; done || lia.
Qed.

(** ** Formatting an optional value in an f-string

    [f"{x}"] of [None] is "None"; of a string, the string itself. *)
Definition py_fmt_opt (o : option pystr) : pystr :=
  match o with
  | Some s => s
  | None => py"None"
  end.

(** ** Characterisations *)

Lemma py_startswith_spec (s p : pystr) :
  py_startswith s p = true <-> p `prefix_of` s.
Proof.
  revert s. induction p as [|c p IH]; intros [|d s]; simpl.
  - split; [intros _; apply prefix_nil | done].
  - split; [intros _; apply prefix_nil | done].
  - split; [done | intros H; by apply prefix_nil_inv in H].
  - rewrite andb_true_iff, IH, N.eqb_eq. split.
    + intros [-> H]. by apply prefix_cons.
    + intros H. split; [by eapply prefix_cons_inv_1 | by eapply prefix_cons_inv_2].
Qed.

Lemma py_startswith_app (p q : pystr) : py_startswith (p ++ q) p = true.
Proof. apply py_startswith_spec. by apply prefix_app_r. Qed.

Lemma py_contains_spec (needle hay : pystr) :
  py_contains needle hay = true <-> exists a b, hay = a ++ needle ++ b.
Proof.
  induction hay as [|c hay IH]; cbn [py_contains]; rewrite orb_true_iff, py_startswith_spec.
  - split.
    + intros [H | H]; [|done]. apply prefix_nil_inv in H as ->. by exists [], [].
    + intros (a & b & H). left. destruct a, needle; simpl in *; try done.
  - rewrite IH. split.
    + intros [[b Hb] | (a & b & ->)].
      * by exists [], b.
      * by exists (c :: a), b.
    + intros ([|d a] & b & H); simpl in H.
      * left. rewrite H. by exists b.
      * right. injection H as -> ->. by exists a, b.
Qed.

Lemma py_contains_intro (needle a b : pystr) :
  py_contains needle (a ++ needle ++ b) = true.
Proof. apply py_contains_spec. eauto. Qed.

Lemma py_upper_app `{PyUpper} (s t : pystr) :
  py_upper (s ++ t) = py_upper s ++ py_upper t.
Proof. apply flat_map_app. Qed.

(** On ASCII text, [py_upper] is ASCII upper-casing, code point by code
    point, whatever the mapping on the rest of Unicode. *)
Lemma py_upper_ascii `{PyUpper} (s : pystr) :
  is_ascii s -> py_upper s = map ascii_upper s.
Proof.
  induction 1 as [|c s Hc _ IH]; [done|]. simpl. rewrite IH.
  unfold ascii_upper. destruct (N.leb_spec 97 c), (N.leb_spec c 122); simpl;
    [rewrite upper_char_lower by lia | rewrite upper_char_ascii by lia ..]; done.
Qed.

Lemma str_replace_app (o : N) (n s t : pystr) :
  str_replace o n (s ++ t) = str_replace o n s ++ str_replace o n t.
Proof. apply flat_map_app. Qed.

Lemma str_replace_other (o c : N) (n : pystr) : c <> o -> str_replace o n [c] = [c].
Proof. intros Hc. cbn. by rewrite decide_False. Qed.

Lemma str_replace_absent (o : N) (n s : pystr) : o ∉ s -> str_replace o n s = s.
Proof.
  induction s as [|c s IH]; intros Hs; [done|].
  change (c :: s) with ([c] ++ s). rewrite str_replace_app, IH by set_solver.
  by rewrite str_replace_other by set_solver.
Qed.

(** The [in] test before each [replace] only saves work. *)
Lemma replace_if_eq (o : N) (n s : pystr) : replace_if o n s = str_replace o n s.
Proof.
  unfold replace_if. destruct (py_contains [o] s) eqn:E; [done|].
  symmetry. apply str_replace_absent. intros Hin.
  apply list_elem_of_split in Hin as (a & b & ->).
  change (o :: b) with ([o] ++ b) in E. by rewrite py_contains_intro in E.
Qed.

Lemma str_replace_elem (o x : N) (n s : pystr) :
  x ∈ str_replace o n s -> x ∈ n \/ (x ∈ s /\ x <> o).
Proof.
  induction s as [|c s IH]; [cbn; set_solver|].
  change (c :: s) with ([c] ++ s). rewrite str_replace_app, elem_of_app.
  intros [Hx|Hx]; [|destruct (IH Hx); set_solver].
  cbn in Hx. case_decide; [left; by rewrite app_nil_r in Hx | set_solver].
Qed.

#[export] Hint Rewrite @py_upper_app : screener_rw.
#[export] Hint Resolve py_startswith_app py_contains_intro : screener.
