(* ===== verification/Form.v ===== *)
(** * Requests and their form fields

    The webhooks read their inputs with [request.form.get(key)] and
    [request.form.get(key, default)] (src/main.py, lines 17-18 and 42-43).
    Werkzeug parses the url-encoded body ([parse_qsl]: split at [&], each
    piece at its first [=], [+] as a space, [%XX] escapes through
    [unquote] and a UTF-8 codec kept abstract in the class [Utf8Decode])
    into a multi-dict that keeps every (key, value) pair in order; [get]
    returns the first value of the key, or the default when the key is
    absent.  The form is modelled as that ordered list of pairs.  A
    request is its method, its path and its form.

    [urlencode] is the client's side, the specification of the round trip
    [urlencode_roundtrip]; [unquote_scan] is the one-pass reading of
    escapes that [unquote_to_bytes], written with [split] as CPython
    writes it, is proved equal to. *)

From stdpp Require Import base list sets.
From Stdlib Require Import NArith String Lia.
From S2P Require Import Prelude PyStr.

Definition form : Type := list (pystr * pystr).

#[export] Instance pystr_eq_dec : EqDecision pystr := _.

(** The first value bound to [k], as [MultiDict.__getitem__] finds it. *)
Fixpoint form_lookup (f : form) (k : pystr) : option pystr :=
  match f with
  | [] => None
  | (k', v) :: f' => if decide (k' = k) then Some v else form_lookup f' k
  end.

(** [request.form.get(k)]: [None] when the field is absent. *)
Definition form_get (f : form) (k : pystr) : option pystr := form_lookup f k.

(** [request.form.get(k, d)] with a string default: always a string. *)
Definition form_get_default (f : form) (k : pystr) (d : pystr) : pystr :=
  match form_lookup f k with
  | Some v => v
  | None => d
  end.

(** The HTTP methods Flask's routing distinguishes. *)
Inductive method : Type := GET | HEAD | POST | PUT | DELETE | PATCH | OPTIONS.

#[export] Instance method_eq_dec : EqDecision method.
Proof. solve_decision. Defined.

Record request : Type := {
  req_method : method;
  req_path : pystr;
  req_form : form
}.

(** ** Parsing the url-encoded body

    Werkzeug 3 reads a form body with
    [parse_qsl(stream.read().decode(), keep_blank_values=True,
    errors="werkzeug.url_quote")] (urllib.parse): the text is split at
    every [&], empty pieces are skipped, each piece is split at its first
    [=] (a piece without one is a name with an empty value), and both
    halves get [+] turned into a space and then [unquote].  The body is
    taken after [.decode()], as a [str]. *)

Local Open Scope N_scope.

(** [s.split(sep)] for a one-character separator: never empty. *)
Fixpoint py_split (sep : N) (s : pystr) : list pystr :=
  match s with
  | [] => [[]]
  | c :: s' =>
      if c =? sep then [] :: py_split sep s'
      else match py_split sep s' with
           | p :: ps => (c :: p) :: ps
           | [] => [[c]]
           end
  end.

(** [s.split(sep, 1)] when [sep] occurs: the text before and after its
    first occurrence. *)
Fixpoint split_once (sep : N) (s : pystr) : option (pystr * pystr) :=
  match s with
  | [] => None
  | c :: s' =>
      if c =? sep then Some ([], s')
      else (fun nv => (c :: nv.1, nv.2)) <$> split_once sep s'
  end.

(** The value of a hexadecimal digit, either case ([_hexdig]). *)
Definition hexdig_val (c : N) : option N :=
  if (48 <=? c) && (c <=? 57) then Some (c - 48)
  else if (65 <=? c) && (c <=? 70) then Some (c - 55)
  else if (97 <=? c) && (c <=? 102) then Some (c - 87)
  else None.

(** [_hextobyte[item[:2]]]: the byte two hex digits spell. *)
Definition hextobyte (item : pystr) : option N :=
  match item with
  | a :: b :: _ =>
      match hexdig_val a, hexdig_val b with
      | Some x, Some y => Some (16 * x + y)
      | _, _ => None
      end
  | _ => None
  end.

(** [_unquote_impl] on an ASCII run: split at [%]; each piece after the
    first starts with the byte its two hex digits spell, or, when they do
    not, gets its [%] back ([unquote_piece]). *)
Definition unquote_piece (item : pystr) : list N :=
  match hextobyte item with
  | Some x => x :: drop 2 item
  | None => 37 :: item
  end.

Definition unquote_to_bytes (s : pystr) : list N :=
  match py_split 37 s with
  | [] => []
  | [b] => b
  | b0 :: items => b0 ++ flat_map unquote_piece items
  end.

(** Decoding bytes as UTF-8 with Werkzeug's error handler, which writes
    an undecodable byte back as its [%XX] escape.  The codec is kept
    abstract; its law fixes it on ASCII bytes, the only part the theorems
    need. *)
Class Utf8Decode := {
  decode_utf8 : list N -> pystr;
  decode_utf8_ascii : forall bs, Forall (fun b => b < 128) bs -> decode_utf8 bs = bs
}.

(** The maximal runs of ASCII and of non-ASCII characters of a string,
    as [_asciire.finditer] cuts it. *)
Fixpoint ascii_runs (s : pystr) : list (bool * pystr) :=
  match s with
  | [] => []
  | c :: s' =>
      let a := bool_decide (c < 128) in
      match ascii_runs s' with
      | (a', r) :: rs => if Bool.eqb a a' then (a, c :: r) :: rs else (a, [c]) :: (a', r) :: rs
      | [] => [(a, [c])]
      end
  end.

(** [urllib.parse.unquote(s, errors="werkzeug.url_quote")]: unchanged
    without a [%]; otherwise every ASCII run is unquoted to bytes and
    decoded, the other runs kept. *)
Definition unquote `{Utf8Decode} (s : pystr) : pystr :=
  if py_contains [37] s then
    flat_map (fun ar : bool * pystr => if ar.1 then decode_utf8 (unquote_to_bytes ar.2) else ar.2) (ascii_runs s)
  else s.

(** One [name=value] piece, [keep_blank_values=True]. *)
Definition parse_pair `{Utf8Decode} (nv : pystr) : pystr * pystr :=
  let '(n, v) := match split_once 61 nv with Some p => p | None => (nv, []) end in
  (unquote (str_replace 43 [32] n), unquote (str_replace 43 [32] v)).

Definition parse_qsl `{Utf8Decode} (qs : pystr) : form :=
  let pieces := if bool_decide (qs = []) then [] else py_split 38 qs in
  map parse_pair (filter (fun nv : pystr => nv <> []) pieces).

(** A sample codec for concrete runs: ASCII bytes decode to themselves,
    every other byte is taken as undecodable and written back as
    [%XX]. *)
Definition hexu (d : N) : N := if d <? 10 then 48 + d else 55 + d.

Definition decode_sample (bs : list N) : pystr :=
  flat_map (fun b => if b <? 128 then [b] else [37; hexu (b / 16); hexu (b mod 16)]) bs.

#[export] Program Instance Utf8Decode_sample : Utf8Decode := {| decode_utf8 := decode_sample |}.
Next Obligation.
  intros bs Hbs. unfold decode_sample. induction Hbs as [|b bs Hb _ IH]; [done|].
  cbn [flat_map]. rewrite IH. by rewrite (proj2 (N.ltb_lt b 128) Hb).
Qed.

(** ** The client's side: [urllib.parse.urlencode] of ASCII pairs

    How the provider writes a form, with [quote_plus]: letters, digits
    and [_.-~] as they are, a space as [+], every other character as
    [%XX] (upper-case hex).  This is the specification of the round trip
    ([urlencode_roundtrip]), not part of the program; it covers ASCII
    text, where a character is one byte. *)
Definition url_safe (c : N) : bool :=
  ((48 <=? c) && (c <=? 57)) || ((65 <=? c) && (c <=? 90)) || ((97 <=? c) && (c <=? 122)) ||
  (c =? 95) || (c =? 46) || (c =? 45) || (c =? 126).

Definition quote_plus_char (c : N) : pystr :=
  if c =? 32 then [43] else if url_safe c then [c] else [37; hexu (c / 16); hexu (c mod 16)].

Definition quote_plus (s : pystr) : pystr := flat_map quote_plus_char s.

Definition pair_text (kv : pystr * pystr) : pystr := quote_plus kv.1 ++ [61] ++ quote_plus kv.2.

Definition urlencode (f : form) : pystr :=
  match f with
  | [] => []
  | kv :: f' => pair_text kv ++ flat_map (fun kv => 38 :: pair_text kv) f'
  end.

(** What a character becomes once [+] has been turned back into a space. *)
Definition quote_sp (c : N) : pystr := if c =? 32 then [32] else quote_plus_char c.

Definition ascii_pair (kv : pystr * pystr) : Prop := is_ascii kv.1 /\ is_ascii kv.2.

(** The one-pass reading of [%XX] escapes, the reference for
    [unquote_to_bytes]. *)
Fixpoint unquote_scan (s : list N) : list N :=
  match s with
  | [] => []
  | c :: r =>
      if c =? 37 then
        match r with
        | a :: b :: r' =>
            match hexdig_val a, hexdig_val b with
            | Some x, Some y => (16 * x + y) :: unquote_scan r'
            | _, _ => 37 :: unquote_scan r
            end
        | _ => 37 :: unquote_scan r
        end
      else c :: unquote_scan r
  end.

Local Close Scope N_scope.

#[local] Set Warnings "-clear-no-such-hyp".

Section UrlDecoding.
Local Open Scope N_scope.

Lemma py_split_cons (sep : N) (s : pystr) : exists p ps, py_split sep s = p :: ps.
Proof.
  induction s as [|c s IH]; cbn; [eauto|]. destruct IH as (p & ps & ->).
  destruct (c =? sep); eauto.
Qed.

Lemma py_split_other (sep c : N) (s : pystr) (p : pystr) (ps : list pystr) :
  c <> sep -> py_split sep s = p :: ps -> py_split sep (c :: s) = (c :: p) :: ps.
Proof. intros Hc Hs. cbn. rewrite (proj2 (N.eqb_neq c sep) Hc), Hs. done. Qed.

Lemma hexdig_val_ne_pct (a x : N) : hexdig_val a = Some x -> a <> 37.
Proof. intros Ha ->. discriminate. Qed.

Lemma py_split_head (sep c d : N) (r p : pystr) (ps : list pystr) :
  py_split sep (c :: r) = (d :: p) :: ps -> c = d /\ c <> sep /\ py_split sep r = p :: ps.
Proof.
  cbn. destruct (N.eqb_spec c sep) as [_|Hc]; [discriminate|].
  destruct (py_split_cons sep r) as (q & qs & Hr). rewrite Hr. intros [= -> -> ->]. auto.
Qed.

Lemma unquote_split_scan (n : nat) (s : pystr) (p : pystr) (ps : list pystr) :
  (List.length s <= n)%nat -> py_split 37 s = p :: ps -> p ++ flat_map unquote_piece ps = unquote_scan s.
Proof.
  revert s p ps. induction n as [|n IH]; intros s p ps Hn Hs.
  { destruct s; [|cbn in Hn; lia]. cbn in Hs. by injection Hs as <- <-. }
  destruct s as [|c r]; [cbn in Hs; by injection Hs as <- <-|].
  cbn in Hn. destruct (N.eqb_spec c 37) as [->|Hc].
  - cbn in Hs. injection Hs as <- <-. cbn [app unquote_scan N.eqb Pos.eqb].
    destruct (py_split_cons 37 r) as (q & qs & Hr). rewrite Hr. cbn [flat_map].
    unfold unquote_piece at 1. destruct (hextobyte q) as [z|] eqn:Hq.
    + destruct q as [|a [|b q'']]; try discriminate. cbn in Hq.
      destruct (hexdig_val a) as [x|] eqn:Ha, (hexdig_val b) as [y|] eqn:Hb; try discriminate.
      injection Hq as <-.
      destruct r as [|a' r]; [cbn in Hr; discriminate|].
      apply py_split_head in Hr as (<- & _ & Hr).
      destruct r as [|b' r]; [cbn in Hr; discriminate|].
      apply py_split_head in Hr as (<- & _ & Hr).
      rewrite Ha, Hb. cbn [app]. f_equal. apply IH; [cbn in Hn; lia | done].
    + cbn [app].
      destruct r as [|a [|b r']]; [f_equal; apply IH; [cbn in *; lia | done] .. |].
      destruct (hexdig_val a) as [x|] eqn:Ha; [destruct (hexdig_val b) as [y|] eqn:Hb|];
        try (f_equal; apply IH; [cbn in *; lia | done]).
      exfalso. pose proof (hexdig_val_ne_pct a x Ha) as Ha'. pose proof (hexdig_val_ne_pct b y Hb) as Hb'.
      destruct (py_split_cons 37 r') as (q' & qs' & Hr').
      rewrite (py_split_other 37 a (b :: r') (b :: q') qs' Ha' (py_split_other 37 b r' q' qs' Hb' Hr')) in Hr.
      injection Hr as <- <-. cbn in Hq. by rewrite Ha, Hb in Hq.
  - destruct (py_split_cons 37 r) as (q & qs & Hr).
    rewrite (py_split_other 37 c r q qs Hc Hr) in Hs. injection Hs as <- <-.
    cbn [unquote_scan app]. rewrite (proj2 (N.eqb_neq c 37) Hc). f_equal. apply IH; [lia | done].
Qed.

Lemma unquote_to_bytes_scan (s : pystr) : unquote_to_bytes s = unquote_scan s.
Proof.
  unfold unquote_to_bytes. destruct (py_split_cons 37 s) as (p & ps & Hs). rewrite Hs.
  rewrite <-(unquote_split_scan (List.length s) s p ps) by done.
  destruct ps; [by rewrite app_nil_r | done].
Qed.

Lemma hexu_facts (d : N) : d < 16 ->
  hexdig_val (hexu d) = Some d /\ hexu d < 128 /\
  hexu d <> 32 /\ hexu d <> 37 /\ hexu d <> 38 /\ hexu d <> 43 /\ hexu d <> 61.
Proof.
  intros Hd. assert (d = 0 \/ d = 1 \/ d = 2 \/ d = 3 \/ d = 4 \/ d = 5 \/ d = 6 \/ d = 7 \/
    d = 8 \/ d = 9 \/ d = 10 \/ d = 11 \/ d = 12 \/ d = 13 \/ d = 14 \/ d = 15) by lia.
  repeat destruct H as [-> | H]; [vm_compute; repeat split; discriminate .. |].
  subst. vm_compute; repeat split; discriminate.
Qed.

Lemma url_safe_facts (c : N) : url_safe c = true ->
  c <> 32 /\ c <> 37 /\ c <> 38 /\ c <> 43 /\ c <> 61.
Proof. intros Hc. repeat split; intros ->; discriminate Hc. Qed.

Lemma quote_escape_facts (c : N) : c < 128 ->
  let e := [37; hexu (c / 16); hexu (c mod 16)] in
  (43 ∉ e) /\ (38 ∉ e) /\ (61 ∉ e) /\ Forall (fun b => b < 128) e /\
  hexdig_val (hexu (c / 16)) = Some (c / 16) /\ hexdig_val (hexu (c mod 16)) = Some (c mod 16).
Proof.
  intros Hc e. assert (c / 16 < 16) by div_lia. assert (c mod 16 < 16) by div_lia.
  destruct (hexu_facts (c / 16)) as (? & ? & ? & ? & ? & ? & ?); [done|].
  destruct (hexu_facts (c mod 16)) as (? & ? & ? & ? & ? & ? & ?); [done|].
  split; [set_solver|]. split; [set_solver|]. split; [set_solver|].
  split; [repeat constructor; lia | done].
Qed.

Lemma replace_plus_quote (s : pystr) : is_ascii s ->
  str_replace 43 [32] (quote_plus s) = flat_map quote_sp s.
Proof.
  induction 1 as [|c s Hc _ IH]; [done|]. unfold quote_plus in *. cbn [flat_map].
  rewrite str_replace_app, IH. f_equal. unfold quote_sp, quote_plus_char.
  destruct (N.eqb_spec c 32) as [->|H32]; [reflexivity|].
  destruct (url_safe c) eqn:Hs.
  - apply str_replace_other. apply url_safe_facts in Hs. tauto.
  - apply str_replace_absent. by destruct (quote_escape_facts c Hc) as [? _].
Qed.

Lemma unquote_scan_quote_char (c : N) (r : pystr) : c < 128 ->
  unquote_scan (quote_sp c ++ r) = c :: unquote_scan r.
Proof.
  intros Hc. unfold quote_sp, quote_plus_char.
  destruct (N.eqb_spec c 32) as [->|H32]; [done|].
  destruct (url_safe c) eqn:Hs.
  - apply url_safe_facts in Hs as (_ & H37 & _). cbn [app unquote_scan].
    by rewrite (proj2 (N.eqb_neq c 37) H37).
  - destruct (quote_escape_facts c Hc) as (_ & _ & _ & _ & Hhi & Hlo).
    cbn [app unquote_scan N.eqb Pos.eqb]. rewrite Hhi, Hlo. f_equal.
    pose proof (N.div_mod c 16). lia.
Qed.

Lemma unquote_scan_quote (s : pystr) : is_ascii s -> unquote_scan (flat_map quote_sp s) = s.
Proof.
  induction 1 as [|c s Hc _ IH]; [done|]. cbn [flat_map].
  by rewrite unquote_scan_quote_char, IH.
Qed.

Lemma unquote_scan_no_pct (s : pystr) : 37 ∉ s -> unquote_scan s = s.
Proof.
  induction s as [|c s IH]; intros Hs; [done|]. cbn [unquote_scan].
  rewrite (proj2 (N.eqb_neq c 37)) by set_solver. by rewrite IH by set_solver.
Qed.

Lemma ascii_runs_ascii (s : pystr) : s <> [] -> is_ascii s -> ascii_runs s = [(true, s)].
Proof.
  intros Hne Hs. induction Hs as [|c s Hc Hs IH]; [done|]. cbn [ascii_runs].
  rewrite bool_decide_true by done. destruct s as [|d s]; [done|]. by rewrite IH.
Qed.

Lemma unquote_ascii `{Utf8Decode} (s : pystr) :
  is_ascii s -> is_ascii (unquote_scan s) -> unquote s = unquote_scan s.
Proof.
  intros Hs Hu. unfold unquote. destruct (py_contains [37] s) eqn:E.
  - destruct s as [|c s']; [done|]. rewrite ascii_runs_ascii by done. cbn [flat_map fst snd].
    by rewrite app_nil_r, unquote_to_bytes_scan, decode_utf8_ascii.
  - symmetry. apply unquote_scan_no_pct. intros Hin. apply list_elem_of_split in Hin as (a & b & ->).
    change (37 :: b) with ([37] ++ b) in E. by rewrite py_contains_intro in E.
Qed.

Lemma quote_char_facts (c : N) : c < 128 ->
  (38 ∉ quote_plus_char c) /\ (61 ∉ quote_plus_char c) /\ is_ascii (quote_sp c).
Proof.
  intros Hc. unfold quote_sp, quote_plus_char.
  destruct (N.eqb_spec c 32) as [->|H32]; [split; [set_solver | split; [set_solver | repeat constructor; lia]]|].
  destruct (url_safe c) eqn:Hs.
  - apply url_safe_facts in Hs as (_ & _ & H38 & _ & H61).
    split; [set_solver|]. split; [set_solver|]. by repeat constructor.
  - destruct (quote_escape_facts c Hc) as (_ & ? & ? & ? & _). auto.
Qed.

Lemma quote_plus_facts (s : pystr) : is_ascii s ->
  (38 ∉ quote_plus s) /\ (61 ∉ quote_plus s) /\ is_ascii (flat_map quote_sp s).
Proof.
  unfold quote_plus. induction 1 as [|c s Hc _ IH]; [split; [set_solver | split; [set_solver | constructor]]|].
  destruct (quote_char_facts c Hc) as (? & ? & ?). destruct IH as (? & ? & ?).
  cbn [flat_map]. rewrite !elem_of_app. split; [tauto|]. split; [tauto|]. by apply Forall_app.
Qed.

Lemma split_once_app (sep : N) (a b : pystr) : sep ∉ a -> split_once sep (a ++ sep :: b) = Some (a, b).
Proof.
  induction a as [|c a IH]; intros Ha; cbn [app split_once]; [by rewrite N.eqb_refl|].
  rewrite (proj2 (N.eqb_neq c sep)) by set_solver. by rewrite IH by set_solver.
Qed.

Lemma py_split_app (sep : N) (a b : pystr) : sep ∉ a -> py_split sep (a ++ sep :: b) = a :: py_split sep b.
Proof.
  induction a as [|c a IH]; intros Ha; cbn [app]; [cbn; by rewrite N.eqb_refl|].
  destruct (py_split_cons sep b) as (p & ps & Hb).
  rewrite (py_split_other sep c (a ++ sep :: b) a (py_split sep b)); [done | set_solver |].
  apply IH. set_solver.
Qed.

Lemma py_split_none (sep : N) (a : pystr) : sep ∉ a -> py_split sep a = [a].
Proof.
  induction a as [|c a IH]; intros Ha; [done|].
  apply (py_split_other sep c a a []); [set_solver | apply IH; set_solver].
Qed.

Lemma parse_pair_text `{Utf8Decode} (k v : pystr) :
  is_ascii k -> is_ascii v -> parse_pair (pair_text (k, v)) = (k, v).
Proof.
  intros Hk Hv. destruct (quote_plus_facts k Hk) as (_ & Hk61 & Hka).
  destruct (quote_plus_facts v Hv) as (_ & _ & Hva).
  unfold parse_pair, pair_text. cbn [fst snd app]. rewrite split_once_app by done.
  rewrite !replace_plus_quote by done.
  by rewrite !unquote_ascii, !unquote_scan_quote by (done || by rewrite unquote_scan_quote).
Qed.

Lemma pair_text_facts (kv : pystr * pystr) : ascii_pair kv -> (38 ∉ pair_text kv) /\ pair_text kv <> [].
Proof.
  intros [Hk Hv]. destruct (quote_plus_facts _ Hk) as (? & _ & _).
  destruct (quote_plus_facts _ Hv) as (? & _ & _). unfold pair_text.
  split; [rewrite !elem_of_app; set_solver | by destruct (quote_plus kv.1)].
Qed.

Lemma urlencode_pieces (kv : pystr * pystr) (f : form) :
  Forall ascii_pair (kv :: f) -> py_split 38 (urlencode (kv :: f)) = map pair_text (kv :: f).
Proof.
  cbn [urlencode]. revert kv. induction f as [|kv' f IH]; intros kv Hf;
    apply Forall_cons in Hf as [Hkv Hf]; destruct (pair_text_facts kv Hkv) as [H38 _].
  - cbn [flat_map map]. rewrite app_nil_r. by apply py_split_none.
  - cbn [flat_map app]. rewrite py_split_app by done. cbn [map]. f_equal. by apply IH.
Qed.

(** C25: Werkzeug's parsing of a url-encoded body undoes the client's
    [urlencode]: any list of ASCII pairs, with spaces, [+], [%], [&] and
    [=] in names and values, comes back in order, duplicates included. *)
Theorem urlencode_roundtrip `{Utf8Decode} (f : form) :
  Forall ascii_pair f -> parse_qsl (urlencode f) = f.
Proof.
  intros Hf. destruct f as [|kv f']; [done|]. unfold parse_qsl.
  rewrite bool_decide_eq_false_2.
  2:{ intros He. cbn [urlencode] in He. apply app_eq_nil in He as [He _].
      by destruct (pair_text_facts kv (Forall_inv Hf)) as [_ ?]. }
  rewrite urlencode_pieces by done. remember (kv :: f') as f eqn:E. clear E kv f'.
  induction f as [|kv f IH]; [done|].
  apply Forall_cons in Hf as [[Hk Hv] Hf]. destruct kv as [k v].
  cbn [map]. rewrite filter_cons_True by (by destruct (pair_text_facts (k, v) (conj Hk Hv))).
  cbn [map]. by rewrite parse_pair_text, IH.
Qed.

End UrlDecoding.

Lemma form_lookup_first (k v : pystr) (f : form) :
  form_lookup ((k, v) :: f) k = Some v.
Proof. simpl. by rewrite decide_True. Qed.

Lemma form_lookup_skip (k k' v : pystr) (f : form) :
  k' <> k -> form_lookup ((k', v) :: f) k = form_lookup f k.
Proof. intros Hne. simpl. by rewrite decide_False. Qed.

Lemma form_lookup_app (f g : form) (k : pystr) :
  form_lookup (f ++ g) k =
  match form_lookup f k with Some v => Some v | None => form_lookup g k end.
Proof.
  induction f as [|[k' v] f IH]; simpl; [done|].
  case_decide; [done | apply IH].
Qed.

Lemma form_get_default_present (f : form) (k d v : pystr) :
  form_lookup f k = Some v -> form_get_default f k d = v.
Proof. unfold form_get_default. by intros ->. Qed.

Lemma form_get_default_absent (f : form) (k d : pystr) :
  form_lookup f k = None -> form_get_default f k d = d.
Proof. unfold form_get_default. by intros ->. Qed.

#[export] Hint Rewrite form_lookup_first : screener_rw.
#[export] Hint Resolve form_get_default_present form_get_default_absent : screener.

Lemma urlencode_roundtrip_witness :
  let f := [(py"From", py"+15551234567"); (py"CallerName", py"Bob & Co = 100%")] in
  Forall ascii_pair f /\ parse_qsl (urlencode f) = f.
Proof.
  intros f. assert (Hf : Forall ascii_pair f) by (repeat constructor; lia).
  split; [exact Hf | apply urlencode_roundtrip; exact Hf].
Defined.
