(* ===== verification/TwiML.v ===== *)
(** * Call-control documents (TwiML)

    The webhooks answer with a [VoiceResponse] built through Twilio's
    helper library (src/main.py, lines 24-25, 29-36, 52-54, 61-64, 71-73).
    A document is the ordered list of verbs appended to the response; a
    [Gather] or [Dial] verb nests its own verbs.  The builders below are the
    helper methods the source calls ([reject], [say], [pause], [hangup],
    [append], [Gather.say], [Dial.number]); each appends one verb at the end,
    as the library's [nest] does.  Only the attributes the source passes
    are represented; an attribute passed as [None] ([Dial(caller_id=None)])
    is omitted by the library, hence the [option]. *)

From stdpp Require Import base list.
From Stdlib Require Import NArith String Lia.
From S2P Require Import Prelude.

Inductive verb : Type :=
| Reject
| Say (message : pystr)
| Gather (input action method : pystr) (timeout : N) (children : list verb)
| Pause (length : N)
| Dial (caller_id : option pystr) (children : list verb)
| Number (phone_number : option pystr)
| Hangup.

(** [VoiceResponse()]: an empty document. *)
Definition response : Type := list verb.
Definition VoiceResponse : response := [].

(** [response.append(v)] and every [response.<verb>(...)] helper. *)
Definition nest (r : response) (v : verb) : response := r ++ [v].

Definition reject (r : response) : response := nest r Reject.
Definition say (r : response) (m : pystr) : response := nest r (Say m).
Definition pause (r : response) (n : N) : response := nest r (Pause n).
Definition hangup (r : response) : response := nest r Hangup.

(** [Gather(...).say(m)] and [Dial(...).number(n)] nest inside the verb. *)
Definition verb_nest (v : verb) (c : verb) : verb :=
  match v with
  | Gather i a m t cs => Gather i a m t (cs ++ [c])
  | Dial cid cs => Dial cid (cs ++ [c])
  | _ => v
  end.

Fixpoint verb_eq_dec_go (v w : verb) {struct v} : Decision (v = w).
Proof.
  refine (match v, w with
    | Reject, Reject => left eq_refl
    | Say a, Say b => cast_if (decide (a = b))
    | Gather i a m t cs, Gather i' a' m' t' cs' =>
        cast_if_and5 (decide (i = i')) (decide (a = a')) (decide (m = m'))
          (decide (t = t')) (@list_eq_dec _ verb_eq_dec_go cs cs')
    | Pause a, Pause b => cast_if (decide (a = b))
    | Dial c cs, Dial c' cs' =>
        cast_if_and (decide (c = c')) (@list_eq_dec _ verb_eq_dec_go cs cs')
    | Number a, Number b => cast_if (decide (a = b))
    | Hangup, Hangup => left eq_refl
    | _, _ => right _
    end); clear verb_eq_dec_go; abstract (intuition congruence).
Defined.

#[export] Instance verb_eq_dec : EqDecision verb := verb_eq_dec_go.

(** ** Observations on documents *)

(** The document gathers speech and posts it to [action] after at most
    [timeout] seconds of silence. *)
Definition gathers_speech_to (action : pystr) (timeout : N) (r : response) : bool :=
  existsb (fun v => match v with
                    | Gather i a m t _ =>
                        bool_decide (i = py"speech" /\ a = action /\ m = py"POST" /\ t = timeout)
                    | _ => false
                    end) r.

(** The document ends with [<Hangup/>]: the provider drops the call
    once the verbs before it have run. *)
Definition ends_with_hangup (r : response) : bool :=
  match last r with Some Hangup => true | _ => false end.

(** ** What the provider accepts

    The texts a document carries: what [Say] speaks and the numbers
    [Number] dials. *)
Fixpoint verb_texts (v : verb) : list pystr :=
  match v with
  | Say m => [m]
  | Number (Some n) => [n]
  | Gather _ _ _ _ cs | Dial _ cs => flat_map verb_texts cs
  | _ => []
  end.

(** The nesting rules of TwiML for the verbs the source uses: [Say] has
    text; [Gather] nests [Say] and [Pause]; [Dial] nests [Number], whose
    content, the number to call, is required; [Number] is not a verb of
    its own. *)
Definition say_ok (v : verb) : bool :=
  match v with Say m => negb (bool_decide (m = [])) | _ => true end.

Definition gather_child (v : verb) : bool :=
  match v with Say _ | Pause _ => say_ok v | _ => false end.

Definition dial_child (v : verb) : bool :=
  match v with Number (Some (_ :: _)) => true | _ => false end.

Definition top_verb (v : verb) : bool :=
  match v with
  | Gather _ _ _ _ cs => forallb gather_child cs
  | Dial _ cs => forallb dial_child cs
  | Number _ => false
  | _ => say_ok v
  end.

Definition response_ok (r : response) : bool := forallb top_verb r.

