(* ===== verification/CallState.v ===== *)
(** * The shared call-state store

    [latest_call] (src/main.py, lines 8-12) is one module-level dict with
    the keys "from", "speech" and "status", read by [/status] and written
    field by field by [/screen], [/connect] and [/reject].  It is modelled
    as a record; each single-key assignment of the source
    ([latest_call["from"] = ...]) is one function [set_from], [set_speech]
    or [set_status], so that a handler is the composition of the writes
    it performs, in the source's order.  The process also writes log lines
    to standard output with [print]; the world of a handler is the store
    together with that output. *)

From stdpp Require Import base list.
From Stdlib Require Import NArith String Lia.
From S2P Require Import Prelude.

(** The three values the source ever stores under "status". *)
Inductive status : Type := waiting | answered | rejected.

#[export] Instance status_eq_dec : EqDecision status.
Proof. solve_decision. Defined.

(** The string stored in the dict for each status. *)
Definition status_str (s : status) : pystr :=
  match s with
  | waiting => py"waiting"
  | answered => py"answered"
  | rejected => py"rejected"
  end.

Record call_state : Type := {
  call_from : option pystr;
  call_speech : option pystr;
  call_status : status
}.

#[export] Instance call_state_eq_dec : EqDecision call_state.
Proof. solve_decision. Defined.

(** The dict as the module creates it at import time. *)
Definition latest_call_init : call_state :=
  {| call_from := None; call_speech := None; call_status := waiting |}.

(** [latest_call["from"] = v] *)
Definition set_from (v : option pystr) (c : call_state) : call_state :=
  {| call_from := v; call_speech := call_speech c; call_status := call_status c |}.

(** [latest_call["speech"] = v] *)
Definition set_speech (v : option pystr) (c : call_state) : call_state :=
  {| call_from := call_from c; call_speech := v; call_status := call_status c |}.

(** [latest_call["status"] = v] *)
Definition set_status (v : status) (c : call_state) : call_state :=
  {| call_from := call_from c; call_speech := call_speech c; call_status := v |}.

(** The process state a handler sees: the store and what has been
    printed so far (oldest line first). *)
Record world : Type := {
  latest_call : call_state;
  stdout : list pystr
}.

Definition world_init : world := {| latest_call := latest_call_init; stdout := [] |}.

(** [print(line)] *)
Definition print (line : pystr) (w : world) : world :=
  {| latest_call := latest_call w; stdout := stdout w ++ [line] |}.

(** A write to the store. *)
Definition update_call (f : call_state -> call_state) (w : world) : world :=
  {| latest_call := f (latest_call w); stdout := stdout w |}.

Lemma status_str_inj (s t : status) : status_str s = status_str t -> s = t.
Proof. destruct s, t; vm_compute; congruence. Qed.

Lemma latest_call_update (f : call_state -> call_state) (w : world) :
  latest_call (update_call f w) = f (latest_call w).
Proof. done. Qed.

Lemma latest_call_print (l : pystr) (w : world) :
  latest_call (print l w) = latest_call w.
Proof. done. Qed.

#[export] Hint Rewrite latest_call_update latest_call_print : screener_rw.
