(* ===== verification/Handlers.v ===== *)
(** * The Flask view functions

    One definition per view of src/main.py: [voice] (lines 15-37),
    [screen] (40-55), [connect_call] (58-65), [reject_call] (68-74),
    [get_status] (77-79) and [dashboard] (82-119).  A view takes the
    request's form and the world (store and standard output) and returns
    the reply and the new world; the statements of the source appear in
    its order, each [print] and each store write as one step.  An
    exception that escapes a view is Flask's 500 reply, with the world as
    the exception left it.  The environment ([os.environ]) is a section
    variable, and the Unicode upper-case mapping a [PyUpper] instance. *)

From stdpp Require Import base list sets.
From Stdlib Require Import NArith String Lia.
From S2P Require Import Prelude PyStr Form TwiML CallState.

#[local] Set Warnings "-clear-no-such-hyp".

(** What a request gets back. *)
Inductive reply : Type :=
| XmlReply (doc : response)            (** [Response(str(doc), mimetype='text/xml')] *)
| JsonReply (snapshot : call_state)    (** [jsonify(latest_call)] *)
| HtmlReply                            (** the dashboard page *)
| ServerError                          (** an uncaught exception: 500 *)
| NotFound                             (** no route for the path: 404 *)
| MethodNotAllowed                     (** the route exists, not for this method: 405 *)
| OptionsReply (allow : list method).   (** Flask's automatic OPTIONS answer *)

#[export] Instance reply_eq_dec : EqDecision reply.
Proof. solve_decision. Defined.

(** The two variables the source reads with [os.environ.get]. *)
Record environ : Type := {
  TWILIO_PHONE_NUMBER : option pystr;
  STEVE_PHONE_NUMBER : option pystr
}.

(** The fixed texts of the source. *)
Definition screening_prompt : pystr :=
  py"Hi. Steve is using call screening. Please state your name and why you are calling after the tone.".
Definition no_response_text : pystr := py"No response received. Goodbye.".
Definition hold_text : pystr := py"Thank you. Please hold.".
Definition unavailable_text : pystr := py"Steve is not available at this time. Goodbye.".

Section Views.
Context `{PyUpper}.
Variable env : environ.

(** The line [voice] prints first (line 20). *)
Definition incoming_line (from_number : option pystr) (caller_name : pystr) : pystr :=
  py"Incoming call from: " ++ py_fmt_opt from_number ++ py" (" ++ caller_name ++ py")".

Definition rejected_line : pystr := py"Rejected likely spam or VOIP caller.".

(** The document of the screening branch (lines 29-36). *)
Definition voice_gather_doc : response :=
  let gather := verb_nest (Gather py"speech" py"/screen" py"POST" 5 []) (Say screening_prompt) in
  hangup (say (nest VoiceResponse gather) no_response_text).

(** [voice]: the incoming-call webhook. *)
Definition voice (f : form) (w : world) : reply * world :=
  let from_number := form_get f py"From" in
  let caller_name := form_get_default f py"CallerName" py"Unknown" in
  let w := print (incoming_line from_number caller_name) w in
  match from_number with
  | None => (ServerError, w)   (* None.startswith: AttributeError *)
  | Some num =>
      if py_startswith num py"+100" || py_contains py"VOIP" (py_upper caller_name) then
        let w := print rejected_line w in
        (XmlReply (reject VoiceResponse), w)
      else
        (XmlReply voice_gather_doc, w)
  end.

(** [screen]: the speech-capture webhook. *)
Definition screen (f : form) (w : world) : reply * world :=
  let speech_result := form_get_default f py"SpeechResult" py"No speech detected" in
  let from_number := form_get f py"From" in
  let w := print (py"Caller said: " ++ speech_result) w in
  let w := update_call (set_from from_number) w in
  let w := update_call (set_speech (Some speech_result)) w in
  let w := update_call (set_status waiting) w in
  let response := say VoiceResponse hold_text in
  (XmlReply (pause response 10), w).

(** [connect_call]: the operator's connect button. *)
Definition connect_call (w : world) : reply * world :=
  let w := update_call (set_status answered) w in
  let dial := verb_nest (Dial (TWILIO_PHONE_NUMBER env) []) (Number (STEVE_PHONE_NUMBER env)) in
  (XmlReply (nest VoiceResponse dial), w).

(** [reject_call]: the operator's reject button. *)
Definition reject_call (w : world) : reply * world :=
  let w := update_call (set_status rejected) w in
  let response := say VoiceResponse unavailable_text in
  (XmlReply (hangup response), w).

(** [get_status]: the dashboard's poll. *)
Definition get_status (w : world) : reply * world :=
  (JsonReply (latest_call w), w).

(** [dashboard]: the static page (no template variable to render). *)
Definition dashboard (w : world) : reply * world := (HtmlReply, w).

End Views.

(** ** Properties of the views *)

Section ViewProperties.
Context `{PyUpper}.
Variable env : environ.

Local Ltac voice_branch HF :=
  unfold voice; rewrite HF; cbn [py_fmt_opt].

(** C2: a caller whose number starts with '+100' is rejected, whatever
    the display name; the store is untouched and both log lines are
    printed. *)
Theorem voice_rejects_spam_prefix (f : form) (w : world) (num : pystr) :
  form_get f py"From" = Some num ->
  py_startswith num py"+100" = true ->
  voice f w = (XmlReply [Reject],
               print rejected_line
                 (print (incoming_line (Some num)
                           (form_get_default f py"CallerName" py"Unknown")) w)).
Proof. intros HF HP. voice_branch HF. by rewrite HP. Qed.

(** C3: a display name with "voip" in any ASCII case somewhere in it gets
    the call rejected, whatever the number (as long as there is one). *)
Theorem voice_rejects_voip_name (f : form) (w : world) (num name a v b : pystr) :
  form_get f py"From" = Some num ->
  form_lookup f py"CallerName" = Some name ->
  name = a ++ v ++ b -> is_ascii v -> map ascii_upper v = py"VOIP" ->
  fst (voice f w) = XmlReply [Reject] /\ latest_call (snd (voice f w)) = latest_call w.
Proof.
  intros HF HN -> Hv Hup. voice_branch HF.
  rewrite (form_get_default_present _ _ _ _ HN). autorewrite with screener_rw.
  rewrite (py_upper_ascii v Hv), Hup.
  by rewrite py_contains_intro, orb_true_r.
Qed.

(** C4: any other caller is asked to speak: the reply gathers speech,
    posts it to /screen after 5 seconds of silence, and otherwise says
    goodbye and hangs up; the store is untouched. *)
Theorem voice_screens_other_callers (f : form) (w : world) (num : pystr) :
  form_get f py"From" = Some num ->
  py_startswith num py"+100" = false ->
  py_contains py"VOIP" (py_upper (form_get_default f py"CallerName" py"Unknown")) = false ->
  fst (voice f w) = XmlReply voice_gather_doc /\
  gathers_speech_to py"/screen" 5 voice_gather_doc = true /\
  ends_with_hangup voice_gather_doc = true /\
  latest_call (snd (voice f w)) = latest_call w.
Proof.
  intros HF HP HV. voice_branch HF. rewrite HP, HV. by vm_compute.
Qed.

(** C5: a request without a From field makes [voice] raise (the source
    calls [None.startswith]): Flask answers 500, after the first log line
    has been printed with "None" for the number. *)
Theorem voice_missing_from_fails (f : form) (w : world) :
  form_get f py"From" = None ->
  voice f w = (ServerError,
               print (incoming_line None (form_get_default f py"CallerName" py"Unknown")) w).
Proof. intros HF. by voice_branch HF. Qed.

Lemma unknown_not_voip : py_contains py"VOIP" (py_upper py"Unknown") = false.
Proof. rewrite py_upper_ascii; [reflexivity | repeat constructor; lia]. Qed.

(** [voice] never writes the shared store, on any branch. *)
Lemma voice_preserves_store (f : form) (w : world) :
  latest_call (snd (voice f w)) = latest_call w.
Proof. unfold voice. destruct (form_get f _); [case_bools|]; done. Qed.

(** ** The From field as Werkzeug parses it *)

Section RawBody.
Context `{Utf8Decode}.
Local Open Scope N_scope.

Lemma parse_qsl_from (v : pystr) : 38 ∉ v ->
  parse_qsl (py"From=" ++ v) = [(py"From", unquote (str_replace 43 [32] v))].
Proof.
  intros Hv. change (py"From=" ++ v) with (py"From" ++ 61 :: v). unfold parse_qsl.
  rewrite bool_decide_eq_false_2 by done.
  rewrite py_split_none by (rewrite elem_of_app, elem_of_cons; cbn; set_solver).
  rewrite filter_cons_True by done. cbn [map filter]. f_equal.
Qed.

(** C26: the prefix check sees the From field after Werkzeug's decoding:
    a number sent as [%2B100...] is rejected, but the same number with a
    raw [+] (which form encoding reads as a space) becomes [" 100..."],
    passes the check and is screened. *)
Theorem raw_plus_evades_spam_prefix (m : pystr) (w : world) :
  is_ascii m -> 37 ∉ m -> 38 ∉ m ->
  fst (voice (parse_qsl (py"From=%2B100" ++ m)) w) = XmlReply [Reject] /\
  fst (voice (parse_qsl (py"From=+100" ++ m)) w) = XmlReply voice_gather_doc.
Proof.
  intros Hm H37 H38.
  set (m' := str_replace 43 [32] m).
  assert (Hm' : is_ascii m' /\ 37 ∉ m').
  { split.
    - apply Forall_forall. intros x Hx. apply str_replace_elem in Hx as [Hx | [Hx _]].
      + apply list_elem_of_singleton in Hx as ->. lia.
      + by eapply Forall_forall in Hm.
    - intros Hx. apply str_replace_elem in Hx as [Hx | [Hx _]]; set_solver. }
  destruct Hm' as [Hma Hm37].
  assert (Hv1 : unquote (str_replace 43 [32] (py"%2B100" ++ m)) = py"+100" ++ m').
  { rewrite str_replace_app. change (str_replace 43 [32] py"%2B100") with py"%2B100".
    fold m'. rewrite unquote_ascii.
    - change (unquote_scan (py"%2B100" ++ m')) with (py"+100" ++ unquote_scan m').
      by rewrite unquote_scan_no_pct.
    - apply Forall_app. split; [repeat constructor; lia | done].
    - change (unquote_scan (py"%2B100" ++ m')) with (py"+100" ++ unquote_scan m').
      rewrite unquote_scan_no_pct by done. apply Forall_app. split; [repeat constructor; lia | done]. }
  assert (Hv2 : unquote (str_replace 43 [32] (py"+100" ++ m)) = py" 100" ++ m').
  { rewrite str_replace_app. change (str_replace 43 [32] py"+100") with py" 100".
    fold m'. unfold unquote. destruct (py_contains [37] (py" 100" ++ m')) eqn:E; [|done].
    exfalso. apply py_contains_spec in E as (a & b & Hab).
    assert (Hin : 37 ∈ py" 100" ++ m') by (rewrite Hab; set_solver).
    rewrite elem_of_app in Hin. destruct Hin as [Hin|]; [|done]. cbn in Hin. set_solver. }
  change (py"From=%2B100" ++ m) with (py"From=" ++ (py"%2B100" ++ m)).
  change (py"From=+100" ++ m) with (py"From=" ++ (py"+100" ++ m)).
  rewrite !parse_qsl_from, Hv1, Hv2 by (rewrite elem_of_app; cbn; set_solver).
  unfold voice, form_get. rewrite !form_lookup_first.
  rewrite !(form_get_default_absent _ py"CallerName") by reflexivity.
  rewrite unknown_not_voip, !orb_false_r, py_startswith_app. done.
Qed.

End RawBody.

End ViewProperties.

(** ** Witnesses, on concrete requests *)

Lemma voice_rejects_spam_prefix_witness :
  form_get [(py"From", py"+1005550100")] py"From" = Some py"+1005550100" /\
  py_startswith py"+1005550100" py"+100" = true /\
  voice [(py"From", py"+1005550100")] world_init =
    (XmlReply [Reject],
     print rejected_line (print (incoming_line (Some py"+1005550100") py"Unknown") world_init)).
Proof.
  split; [reflexivity|]. split; [reflexivity|].
  apply voice_rejects_spam_prefix; reflexivity.
Defined.

Lemma voice_rejects_voip_name_witness :
  let f := [(py"From", py"+15550100"); (py"CallerName", py"Acme VoIP Ltd")] in
  form_get f py"From" = Some py"+15550100" /\
  form_lookup f py"CallerName" = Some py"Acme VoIP Ltd" /\
  py"Acme VoIP Ltd" = py"Acme " ++ py"VoIP" ++ py" Ltd" /\
  is_ascii py"VoIP" /\ map ascii_upper py"VoIP" = py"VOIP" /\
  fst (voice f world_init) = XmlReply [Reject] /\
  latest_call (snd (voice f world_init)) = latest_call world_init.
Proof.
  intros f. do 3 (split; [reflexivity|]). split; [repeat constructor; vm_compute; reflexivity|].
  split; [reflexivity|].
  apply (voice_rejects_voip_name f world_init py"+15550100" py"Acme VoIP Ltd"
           py"Acme " py"VoIP" py" Ltd"); [reflexivity | reflexivity | reflexivity | | reflexivity].
  repeat constructor; vm_compute; reflexivity.
Defined.

Lemma voice_screens_other_callers_witness :
  let f := [(py"From", py"+15551234567"); (py"CallerName", py"Bob")] in
  form_get f py"From" = Some py"+15551234567" /\
  py_startswith py"+15551234567" py"+100" = false /\
  py_contains py"VOIP" (py_upper (form_get_default f py"CallerName" py"Unknown")) = false /\
  fst (voice f world_init) = XmlReply voice_gather_doc /\
  gathers_speech_to py"/screen" 5 voice_gather_doc = true /\
  ends_with_hangup voice_gather_doc = true /\
  latest_call (snd (voice f world_init)) = latest_call world_init.
Proof.
  intros f. do 3 (split; [vm_compute; reflexivity|]).
  apply (voice_screens_other_callers f world_init py"+15551234567"); vm_compute; reflexivity.
Defined.

Lemma voice_missing_from_fails_witness :
  let f := [(py"CallerName", py"VOIP spammer")] in
  form_get f py"From" = None /\
  voice f world_init =
    (ServerError, print (incoming_line None py"VOIP spammer") world_init).
Proof.
  intros f. split; [reflexivity|].
  apply (voice_missing_from_fails f world_init); reflexivity.
Defined.

Lemma raw_plus_evades_spam_prefix_witness :
  is_ascii py"5550100" /\ (37%N ∉ py"5550100") /\ (38%N ∉ py"5550100") /\
  fst (voice (parse_qsl (py"From=%2B100" ++ py"5550100")) world_init) = XmlReply [Reject] /\
  fst (voice (parse_qsl (py"From=+100" ++ py"5550100")) world_init) = XmlReply voice_gather_doc.
Proof.
  assert (Ha : is_ascii py"5550100") by (repeat constructor; lia).
  assert (H37 : 37%N ∉ py"5550100") by (apply (bool_decide_unpack _); vm_compute; exact I).
  assert (H38 : 38%N ∉ py"5550100") by (apply (bool_decide_unpack _); vm_compute; exact I).
  split; [exact Ha|]. split; [exact H37|]. split; [exact H38|].
  apply raw_plus_evades_spam_prefix; assumption.
Defined.
