(* ===== verification/Server.v ===== *)
(** * The Flask application: routing and request sequences

    The [@app.route] decorators of src/main.py (lines 15, 40, 58, 68, 77,
    82) build Flask's URL map: four POST-only rules and two rules with the
    default methods (GET, to which Flask adds HEAD); every rule also
    answers OPTIONS automatically.  [dispatch] is Werkzeug's matching
    followed by the view: no rule for the path is 404, a rule without the
    method is 405, OPTIONS is answered without running the view.

    A server that handles one request at a time is [run] over a list of
    requests; its reachable worlds are [reachable].  The abstract
    specification of the store is the single-slot register of the design
    notes: after a history of events, the store holds the number and speech
    of the last screened call and the status of the last event
    ([spec_store]).  [run_refines_spec] shows the application implements
    it. *)

From stdpp Require Import base list sets.
From Stdlib Require Import NArith String Lia.
From S2P Require Import Prelude PyStr Form TwiML CallState Handlers.

Inductive view : Type := VVoice | VScreen | VConnect | VReject | VStatus | VDashboard.

Record rule : Type := {
  rule_path : pystr;
  rule_methods : list method;
  rule_view : view
}.

(** The URL map the decorators register, in registration order. *)
Definition url_map : list rule :=
  [ {| rule_path := py"/voice"; rule_methods := [POST]; rule_view := VVoice |};
    {| rule_path := py"/screen"; rule_methods := [POST]; rule_view := VScreen |};
    {| rule_path := py"/connect"; rule_methods := [POST]; rule_view := VConnect |};
    {| rule_path := py"/reject"; rule_methods := [POST]; rule_view := VReject |};
    {| rule_path := py"/status"; rule_methods := [GET]; rule_view := VStatus |};
    {| rule_path := py"/"; rule_methods := [GET]; rule_view := VDashboard |} ].

(** The methods a rule accepts once Flask has added HEAD (when GET is
    there) and the automatic OPTIONS. *)
Definition rule_allowed (r : rule) : list method :=
  rule_methods r ++ (if bool_decide (GET ∈ rule_methods r) then [HEAD] else []) ++ [OPTIONS].

Definition match_rule (p : pystr) : option rule :=
  find (fun r => bool_decide (rule_path r = p)) url_map.

(** The requests the provider and the dashboard send. *)
Definition post_req (p : pystr) (f : form) : request :=
  {| req_method := POST; req_path := p; req_form := f |}.
Definition get_req (p : pystr) : request :=
  {| req_method := GET; req_path := p; req_form := [] |}.

Section Server.
Context `{PyUpper}.
Variable env : environ.

Definition run_view (v : view) (f : form) (w : world) : reply * world :=
  match v with
  | VVoice => voice f w
  | VScreen => screen f w
  | VConnect => connect_call env w
  | VReject => reject_call w
  | VStatus => get_status w
  | VDashboard => dashboard w
  end.

(** One request, handled from routing to reply. *)
Definition dispatch (rq : request) (w : world) : reply * world :=
  match match_rule (req_path rq) with
  | None => (NotFound, w)
  | Some r =>
      if bool_decide (req_method rq = OPTIONS) then (OptionsReply (rule_allowed r), w)
      else if bool_decide (req_method rq ∈ rule_allowed r) then run_view (rule_view r) (req_form rq) w
      else (MethodNotAllowed, w)
  end.

(** Requests handled one after the other. *)
Fixpoint run (rqs : list request) (w : world) : list reply * world :=
  match rqs with
  | [] => ([], w)
  | rq :: rqs' =>
      let (r, w1) := dispatch rq w in
      let (rs, w2) := run rqs' w1 in
      (r :: rs, w2)
  end.

Inductive reachable : world -> Prop :=
| reachable_init : reachable world_init
| reachable_step (w : world) (rq : request) :
    reachable w -> reachable (snd (dispatch rq w)).

End Server.

(** ** The abstract specification: a single-slot register *)

Inductive event : Type :=
| EvScreen (from : option pystr) (speech : pystr)
| EvConnect
| EvReject.

(** The effect a request has on the store, read off the request: the
    webhook and the two buttons, when posted. *)
Definition event_of (rq : request) : option event :=
  if bool_decide (req_method rq = POST) then
    if bool_decide (req_path rq = py"/screen") then
      Some (EvScreen (form_get (req_form rq) py"From")
              (form_get_default (req_form rq) py"SpeechResult" py"No speech detected"))
    else if bool_decide (req_path rq = py"/connect") then Some EvConnect
    else if bool_decide (req_path rq = py"/reject") then Some EvReject
    else None
  else None.

Definition screen_data (e : event) : option (option pystr * pystr) :=
  match e with EvScreen f s => Some (f, s) | _ => None end.

(** The store after a history: the data of the last screened call and
    the status the last event set ("waiting" before any event). *)
Definition spec_store (es : list event) : call_state :=
  let last_call := head (omap screen_data (rev es)) in
  {| call_from := match last_call with Some (f, _) => f | None => None end;
     call_speech := option_map snd last_call;
     call_status := match head (rev es) with
                    | Some EvConnect => answered
                    | Some EvReject => rejected
                    | _ => waiting
                    end |}.

(** The store's own invariant: the speech is empty only before the first
    screened call, when the number is empty too. *)
Definition store_inv (c : call_state) : Prop := call_speech c = None -> call_from c = None.

(** The effect of one event on the store, in the source's terms. *)
Definition apply_event (e : event) (c : call_state) : call_state :=
  match e with
  | EvScreen f s => {| call_from := f; call_speech := Some s; call_status := waiting |}
  | EvConnect => set_status answered c
  | EvReject => set_status rejected c
  end.

Definition apply_event_opt (o : option event) (c : call_state) : call_state :=
  match o with Some e => apply_event e c | None => c end.

(** ** Routing *)

Section Routing.
Context `{PyUpper}.
Variable env : environ.

#[local] Set Warnings "-clear-no-such-hyp".

Local Ltac route :=
  repeat (case_bool_decide; simplify_eq/=); try done.

(** Every request changes the store exactly as its event says: requests
    with no event (the voice webhook, the status poll, the page, a wrong
    method or path) leave it alone. *)
Lemma dispatch_store (rq : request) (w : world) :
  latest_call (snd (dispatch env rq w)) = apply_event_opt (event_of rq) (latest_call w).
Proof.
  destruct rq as [m p f]. unfold dispatch, event_of, match_rule. cbn -[lit].
  route; first [apply voice_preserves_store | exfalso; unfold rule_allowed in *; set_solver].
Qed.

Lemma run_cons_snd (rq : request) (rqs : list request) (w : world) :
  snd (run env (rq :: rqs) w) = snd (run env rqs (snd (dispatch env rq w))).
Proof. cbn [run]. destruct (dispatch env rq w) as [r w1]. cbn [snd]. by destruct (run env rqs w1). Qed.

Lemma run_snoc (rqs : list request) (rq : request) (w : world) :
  snd (run env (rqs ++ [rq]) w) = snd (dispatch env rq (snd (run env rqs w))).
Proof.
  revert w. induction rqs as [|rq' rqs IH]; intros w; cbn [app].
  - rewrite run_cons_snd. done.
  - by rewrite !run_cons_snd, IH.
Qed.

(** The dashboard's poll reaches [get_status]. *)
Lemma dispatch_get_status (w : world) :
  dispatch env (get_req py"/status") w = (JsonReply (latest_call w), w).
Proof. by vm_compute. Qed.

(** A document reply comes from a view run on the request's form: Flask's
    own replies (404, 405, OPTIONS) are not documents. *)
Lemma dispatch_xml (rq : request) (w : world) (doc : response) :
  fst (dispatch env rq w) = XmlReply doc ->
  exists v, fst (run_view env v (req_form rq) w) = XmlReply doc.
Proof.
  unfold dispatch. destruct (match_rule _) as [r|]; [|done].
  repeat case_bool_decide; cbn [fst]; [done | eauto | done].
Qed.

End Routing.

Lemma spec_store_snoc (es : list event) (e : event) :
  spec_store (es ++ [e]) = apply_event e (spec_store es).
Proof. unfold spec_store. rewrite rev_unit. by destruct e. Qed.

Lemma spec_store_nil : spec_store [] = latest_call_init.
Proof. done. Qed.

Lemma apply_event_inv (e : event) (c : call_state) :
  store_inv c -> store_inv (apply_event e c).
Proof. unfold store_inv. by destruct e. Qed.

#[export] Hint Resolve apply_event_inv : screener.

(** ** Properties of the application *)

Section AppProperties.
Context `{PyUpper}.
Variable env : environ.

(** C1: refinement. After any sequence of requests handled one at a time
    from the start of the process, the store is the abstract register of
    the events those requests carry. *)
Theorem run_refines_spec (rqs : list request) :
  latest_call (snd (run env rqs world_init)) = spec_store (omap event_of rqs).
Proof.
  induction rqs as [|rq rqs IH] using rev_ind; [done|].
  rewrite run_snoc, dispatch_store, IH, omap_app. simpl.
  destruct (event_of rq) as [e|]; simpl; [|by rewrite app_nil_r].
  by rewrite spec_store_snoc.
Qed.

(** The worlds reachable by single steps are the results of runs. *)
Lemma reachable_run (w : world) :
  reachable env w <-> exists rqs, snd (run env rqs world_init) = w.
Proof.
  split.
  - induction 1 as [|w rq _ (rqs & <-)]; [by exists [] |].
    exists (rqs ++ [rq]). by rewrite run_snoc.
  - intros (rqs & <-). induction rqs as [|rq rqs IH] using rev_ind; [constructor|].
    rewrite run_snoc. by constructor.
Qed.

(** C6: invariant, by induction on reachability: in every reachable world the
    speech is empty only while the number is empty too. *)
Theorem reachable_store_inv (w : world) :
  reachable env w -> store_inv (latest_call w).
Proof.
  induction 1 as [|w rq _ IH]; [done|].
  rewrite dispatch_store. destruct (event_of rq); simpl; auto with screener.
Qed.

(** C7: only a POST to /screen, /connect or /reject can change the store. *)
Theorem store_written_only_by_posts (rq : request) (w : world) :
  latest_call (snd (dispatch env rq w)) <> latest_call w ->
  req_method rq = POST /\ req_path rq ∈ [py"/screen"; py"/connect"; py"/reject"].
Proof.
  rewrite dispatch_store. unfold event_of.
  case_bool_decide as Hm; [|done].
  repeat (case_bool_decide;
    [intros _; split; [done|];
     match goal with Hp : req_path rq = _ |- _ => rewrite Hp end;
     apply list_elem_of_In; simpl; auto |]).
  simpl. intros Hne. by exfalso; apply Hne.
Qed.

(** C10: the status poll, with GET or the HEAD Flask adds, answers the
    current store and changes nothing. *)
Theorem status_poll_pure (m : method) (f : form) (w : world) :
  m = GET \/ m = HEAD ->
  dispatch env {| req_method := m; req_path := py"/status"; req_form := f |} w =
  (JsonReply (latest_call w), w).
Proof. intros [-> | ->]; by vm_compute. Qed.

(** C8: after the speech webhook, the poll shows the caller's number and
    speech with the status "waiting", whatever the store held. *)
Theorem screen_then_status (f : form) (w : world) :
  fst (run env [post_req py"/screen" f; get_req py"/status"] w) =
  [XmlReply [Say hold_text; Pause 10];
   JsonReply {| call_from := form_get f py"From";
                call_speech := Some (form_get_default f py"SpeechResult" py"No speech detected");
                call_status := waiting |}].
Proof. by vm_compute. Qed.

(** C9: after the connect button the poll shows "answered", after the
    reject button "rejected"; the number and speech stay. *)
Theorem operator_action_then_status (w : world) :
  fst (run env [post_req py"/connect" []; get_req py"/status"] w) =
    [XmlReply [Dial (TWILIO_PHONE_NUMBER env) [Number (STEVE_PHONE_NUMBER env)]];
     JsonReply (set_status answered (latest_call w))] /\
  fst (run env [post_req py"/reject" []; get_req py"/status"] w) =
    [XmlReply [Say unavailable_text; Hangup]; JsonReply (set_status rejected (latest_call w))].
Proof. by vm_compute. Qed.

(** C11: the four POST routes answer 405 to a GET and run nothing. *)
Theorem webhooks_refuse_get (p : pystr) (w : world) :
  p ∈ [py"/voice"; py"/screen"; py"/connect"; py"/reject"] ->
  dispatch env (get_req p) w = (MethodNotAllowed, w).
Proof.
  intros Hp. apply list_elem_of_In in Hp.
  repeat destruct Hp as [<- | Hp]; try contradiction; by vm_compute.
Qed.

End AppProperties.

(** ** Witnesses, on concrete requests *)

Lemma reachable_store_inv_witness :
  let env := {| TWILIO_PHONE_NUMBER := None; STEVE_PHONE_NUMBER := None |} in
  let w := snd (dispatch env (post_req py"/connect" []) world_init) in
  reachable env w /\ store_inv (latest_call w).
Proof.
  intros env w. split; [apply reachable_step, reachable_init|].
  apply (reachable_store_inv env w). apply reachable_step, reachable_init.
Defined.

Lemma store_written_only_by_posts_witness :
  let env := {| TWILIO_PHONE_NUMBER := None; STEVE_PHONE_NUMBER := None |} in
  let rq := post_req py"/reject" [] in
  latest_call (snd (dispatch env rq world_init)) <> latest_call world_init /\
  req_method rq = POST /\ req_path rq ∈ [py"/screen"; py"/connect"; py"/reject"].
Proof.
  intros env rq. split; [vm_compute; discriminate|].
  apply (store_written_only_by_posts env rq world_init). vm_compute; discriminate.
Defined.

Lemma status_poll_pure_witness :
  let env := {| TWILIO_PHONE_NUMBER := None; STEVE_PHONE_NUMBER := None |} in
  (HEAD = GET \/ HEAD = HEAD) /\
  dispatch env {| req_method := HEAD; req_path := py"/status"; req_form := [] |} world_init =
  (JsonReply latest_call_init, world_init).
Proof.
  intros env. split; [right; reflexivity|].
  apply (status_poll_pure env HEAD [] world_init). right; reflexivity.
Defined.

Lemma webhooks_refuse_get_witness :
  let env := {| TWILIO_PHONE_NUMBER := None; STEVE_PHONE_NUMBER := None |} in
  py"/connect" ∈ [py"/voice"; py"/screen"; py"/connect"; py"/reject"] /\
  dispatch env (get_req py"/connect") world_init = (MethodNotAllowed, world_init).
Proof.
  intros env. split; [apply list_elem_of_In; simpl; auto|].
  apply (webhooks_refuse_get env py"/connect" world_init). apply list_elem_of_In; simpl; auto.
Defined.
