(* ===== verification/Xml.v ===== *)
(** * The XML text of the TwiML documents

    Each webhook answers [Response(str(response), mimetype='text/xml')]
    (src/main.py, lines 26, 37, 55, 65, 74).  [str(response)] is Twilio's
    [TwiML.to_xml]: [TwiML.xml] turns the verb tree into an ElementTree
    element (the verb's class name as tag; the keyword arguments that are
    not [None], in sorted order, as attributes, each value through [str];
    the verb's value as text when it is truthy; the nested verbs as
    children), [ElementTree.tostring(encoding='utf-8')] writes it with no
    declaration, and Twilio puts its own declaration in front.  The writer
    escapes attribute values with [_escape_attrib] and text with
    [_escape_cdata], each a chain of [str.replace] calls, and writes an
    element with neither text nor children in short form ([<Reject />]).

    [xml_parse] is a reader of that text as an XML processor sees it:
    entity and character references are decoded, and raw carriage returns
    in character data are line ends (XML 1.0, 2.11).  It is the
    specification of the round trip, not a part of the program. *)

From stdpp Require Import base list sorting sets.
From Stdlib Require Import NArith String Lia.
From Equations Require Import Equations.
From S2P Require Import Prelude PyStr Form TwiML CallState Handlers Server.

#[local] Set Warnings "-clear-no-such-hyp".

(** ** [str] of an [int]

    CPython writes a non-negative [int] in decimal, most significant digit
    first.  The recursion is on the value divided by ten, which is not a
    subterm: it is well founded on the value. *)
Equations? py_str_int (n : N) : pystr by wf (N.to_nat n) lt :=
  py_str_int n with decide (n < 10)%N => {
    | left _ := [(48 + n)%N];
    | right _ := py_str_int (n / 10) ++ [(48 + n mod 10)%N] }.
Proof. div_lia. Qed.

(** ** ElementTree elements *)

(** An element: its tag, its attributes in the order they were set, its
    text ([None] and the empty string both write nothing, so both are the
    empty list here) and its children.  The elements TwiML builds never
    have a tail. *)
Inductive element : Type :=
| Element (tag : pystr) (attrib : list (pystr * pystr)) (text : pystr) (children : list element).

(** ** The escapes of ElementTree *)

(** [_escape_cdata]: [&], [<], [>] in that order. *)
Definition escape_cdata (s : pystr) : pystr :=
  let s := replace_if 38 py"&amp;" s in
  let s := replace_if 60 py"&lt;" s in
  replace_if 62 py"&gt;" s.

(** [_escape_attrib]: [&], [<], [>], the double quote, then carriage
    return, line feed and tab as character references. *)
Definition escape_attrib (s : pystr) : pystr :=
  let s := replace_if 38 py"&amp;" s in
  let s := replace_if 60 py"&lt;" s in
  let s := replace_if 62 py"&gt;" s in
  let s := replace_if 34 py"&quot;" s in
  let s := replace_if 13 py"&#13;" s in
  let s := replace_if 10 py"&#10;" s in
  replace_if 9 py"&#09;" s.

(** The one-pass references: what each character becomes. *)
Definition cdata_char (c : N) : pystr :=
  if decide (c = 38%N) then py"&amp;"
  else if decide (c = 60%N) then py"&lt;"
  else if decide (c = 62%N) then py"&gt;"
  else [c].

Definition attrib_char (c : N) : pystr :=
  if decide (c = 38%N) then py"&amp;"
  else if decide (c = 60%N) then py"&lt;"
  else if decide (c = 62%N) then py"&gt;"
  else if decide (c = 34%N) then py"&quot;"
  else if decide (c = 13%N) then py"&#13;"
  else if decide (c = 10%N) then py"&#10;"
  else if decide (c = 9%N) then py"&#09;"
  else [c].

(** ** The writer, [ElementTree._serialize_xml] *)

(** A value between double quotes (the quote is code point 34). *)
Definition dq (s : pystr) : pystr := [34%N] ++ s ++ [34%N].

Definition attr_text (kv : pystr * pystr) : pystr :=
  py" " ++ kv.1 ++ py"=" ++ dq (escape_attrib kv.2).

(** [<tag k="v"...>text children</tag>], or [<tag k="v" />] when the
    element has no text and no children ([short_empty_elements]). *)
Fixpoint serialize_xml (e : element) : pystr :=
  match e with
  | Element tag attrib text children =>
      py"<" ++ tag ++ flat_map attr_text attrib ++
      match text, children with
      | [], [] => py" />"
      | _, _ => py">" ++ escape_cdata text ++ flat_map serialize_xml children ++
                py"</" ++ tag ++ py">"
      end
  end.

(** ** Twilio's [TwiML.xml] *)

(** The values of keyword arguments the source passes: strings and ints. *)
Inductive attr_value : Type :=
| AStr (s : pystr)
| AInt (n : N).

Definition str_attr (v : attr_value) : pystr :=
  match v with AStr s => s | AInt n => py_str_int n end.

Definition attr_le (kv1 kv2 : pystr * pystr) : Prop := str_leb kv1.1 kv2.1 = true.

#[export] Instance attr_le_dec : RelDecision attr_le.
Proof. intros x y. unfold attr_le. apply _. Defined.

(** [TwiML.__init__] keeps the keyword arguments that are not [None]
    (under their lower-camel-case names); [xml] sets them in sorted key
    order, each as [str(value)]. *)
Definition twiml_attrs (kwargs : list (pystr * option attr_value)) : list (pystr * pystr) :=
  merge_sort attr_le (omap (fun kv => (fun v => (kv.1, str_attr v)) <$> kv.2) kwargs).

(** [if self.value: el.text = str(self.value)]. *)
Definition twiml_text (value : option pystr) : pystr :=
  match value with Some s => s | None => [] end.

Fixpoint verb_el (v : verb) : element :=
  match v with
  | Reject => Element py"Reject" [] [] []
  | Say m => Element py"Say" [] m []
  | Gather i a m t cs =>
      Element py"Gather"
        (twiml_attrs [(py"input", Some (AStr i)); (py"action", Some (AStr a));
                      (py"method", Some (AStr m)); (py"timeout", Some (AInt t))])
        [] (map verb_el cs)
  | Pause n => Element py"Pause" (twiml_attrs [(py"length", Some (AInt n))]) [] []
  | Dial cid cs =>
      Element py"Dial" (twiml_attrs [(py"callerId", AStr <$> cid)]) [] (map verb_el cs)
  | Number p => Element py"Number" [] (twiml_text p) []
  | Hangup => Element py"Hangup" [] [] []
  end.

(** [VoiceResponse] is written as the element [Response]. *)
Definition response_el (r : response) : element :=
  Element py"Response" [] [] (map verb_el r).

Definition xml_decl : pystr :=
  py"<?xml version=" ++ dq py"1.0" ++ py" encoding=" ++ dq py"UTF-8" ++ py"?>".

(** XML 1.0 [Char] (production 2): tab, line feed, carriage return and
    the code points from 0x20 on, less the surrogates, 0xFFFE and 0xFFFF. *)
Definition xml_char (c : N) : bool :=
  (c =? 9)%N || (c =? 10)%N || (c =? 13)%N || ((32 <=? c)%N && (c <=? 55295)%N) ||
  ((57344 <=? c)%N && (c <=? 65533)%N) || ((65536 <=? c)%N && (c <=? 1114111)%N).

Definition is_surrogate (c : N) : bool := (55296 <=? c)%N && (c <=? 57343)%N.

(** [ElementTree.tostring(encoding='utf-8')] writes through a text
    wrapper opened with [errors='xmlcharrefreplace']: UTF-8 cannot encode
    a lone surrogate (as [os.environ] makes of bytes that are not UTF-8),
    and the handler writes it as a decimal character reference. *)
Definition xmlcharref (c : N) : pystr :=
  if is_surrogate c then py"&#" ++ py_str_int c ++ py";" else [c].

Definition xml_encode (s : pystr) : pystr := flat_map xmlcharref s.

(** [str(response)]: [TwiML.to_xml()], the encoded text decoded back
    with [.decode('utf-8')] after Twilio's declaration. *)
Definition to_xml (r : response) : pystr := xml_decl ++ xml_encode (serialize_xml (response_el r)).

(** The body of a view's reply when it is a document:
    [Response(str(response), mimetype='text/xml')]. *)
Definition reply_xml (rp : reply) : option pystr :=
  match rp with XmlReply doc => Some (to_xml doc) | _ => None end.

(** A configuration with both numbers set, for concrete runs. *)
Definition sample_env : environ :=
  {| TWILIO_PHONE_NUMBER := Some py"+15550001111"; STEVE_PHONE_NUMBER := Some py"+15559998888" |}.


(** ** A reader of XML text

    [xml_parse] reads the text the way an XML processor does, for the
    part of XML the writer produces: names end at a space, [/], [=] or
    [>]; character data and attribute values decode [&amp;], [&lt;],
    [&gt;], [&quot;], [&apos;] and decimal character references; a raw
    character or a reference that is not an XML [Char] is an error, as
    it is for expat (ElementTree's parser); in
    character data a raw carriage return, alone or before a line feed,
    is one line feed, and in an attribute value a raw tab, line feed or
    carriage return is a space (attribute-value normalisation). *)

Local Open Scope N_scope.

Definition is_name_end (c : N) : bool := (c =? 32) || (c =? 47) || (c =? 61) || (c =? 62).

Fixpoint read_name (s : pystr) : pystr * pystr :=
  match s with
  | c :: s' => if is_name_end c then ([], s) else let (n, r) := read_name s' in (c :: n, r)
  | [] => ([], [])
  end.

(** The text after a name starts with a character that ends it. *)
Definition ends_name (r : pystr) : bool :=
  match r with c :: _ => is_name_end c | [] => true end.

(** Decimal digits of a character reference. *)
Fixpoint dec_val (acc : N) (s : pystr) : option N :=
  match s with
  | [] => Some acc
  | c :: s' => if (48 <=? c) && (c <=? 57) then dec_val (10 * acc + (c - 48)) s' else None
  end.

(** The character an entity or character reference (between [&] and
    [;]) stands for. *)
Definition entity_value (name : pystr) : option N :=
  if decide (name = py"amp") then Some 38%N
  else if decide (name = py"lt") then Some 60%N
  else if decide (name = py"gt") then Some 62%N
  else if decide (name = py"quot") then Some 34%N
  else if decide (name = py"apos") then Some 39%N
  else match name with
       | 35 :: (_ :: _) as ds => dec_val 0 ds
       | _ => None
       end.

Definition cons_fst {A B} (x : A) (p : list A * B) : list A * B := (x :: p.1, p.2).

(** Character data ([attr = false]) or an attribute value ([attr =
    true]) up to the first [stop]; [ent] is the reference being read. *)
Fixpoint read_text (attr : bool) (stop : N) (ent : option pystr) (s : pystr)
    : option (pystr * pystr) :=
  match s, ent with
  | [], _ => None
  | c :: s', Some acc =>
      if c =? 59 then
        match entity_value acc with
        | Some x => if xml_char x then cons_fst x <$> read_text attr stop None s' else None
        | None => None
        end
      else read_text attr stop (Some (acc ++ [c])) s'
  | c :: s', None =>
      if c =? stop then Some ([], s)
      else if c =? 38 then read_text attr stop (Some []) s'
      else if attr && ((c =? 9) || (c =? 10) || (c =? 13)) then
        cons_fst 32%N <$> read_text attr stop None s'
      else if c =? 13 then
        match s' with
        | 10 :: s'' => cons_fst 10%N <$> read_text attr stop None s''
        | _ => cons_fst 10%N <$> read_text attr stop None s'
        end
      else if xml_char c then cons_fst c <$> read_text attr stop None s'
      else None
  end.

(** [s] with the prefix [p] removed, when it starts with [p]. *)
Definition strip (p s : pystr) : option pystr :=
  if py_startswith s p then Some (drop (List.length p) s) else None.

(** The attributes after a tag name, up to [>] or [ />]. *)
Fixpoint read_attrs (fuel : nat) (s : pystr) : option (list (pystr * pystr) * pystr) :=
  match fuel with
  | O => None
  | S n =>
      if py_startswith s py" />" then Some ([], s)
      else match strip py" " s with
           | Some s1 =>
               let (k, s2) := read_name s1 in
               match strip (py"=" ++ [34]) s2 with
               | Some s3 =>
                   match read_text true 34 None s3 with
                   | Some (v, s4) =>
                       match strip [34] s4 with
                       | Some s5 => cons_fst (k, v) <$> read_attrs n s5
                       | None => None
                       end
                   | None => None
                   end
               | None => None
               end
           | None => Some ([], s)
           end
  end.

Fixpoint parse_el (fuel : nat) (s : pystr) : option (element * pystr) :=
  match fuel with
  | O => None
  | S n =>
      match strip py"<" s with
      | Some s1 =>
          let (tag, s2) := read_name s1 in
          match read_attrs (List.length s2) s2 with
          | Some (attrs, s3) =>
              match strip py" />" s3 with
              | Some s4 => Some (Element tag attrs [] [], s4)
              | None =>
                  match strip py">" s3 with
                  | Some s4 =>
                      match read_text false 60 None s4 with
                      | Some (text, s5) =>
                          match parse_children n tag s5 with
                          | Some (cs, s6) => Some (Element tag attrs text cs, s6)
                          | None => None
                          end
                      | None => None
                      end
                  | None => None
                  end
              end
          | None => None
          end
      | None => None
      end
  end
with parse_children (fuel : nat) (tag s : pystr) : option (list element * pystr) :=
  match fuel with
  | O => None
  | S n =>
      match strip py"</" s with
      | Some s1 =>
          let (t, s2) := read_name s1 in
          match strip py">" s2 with
          | Some s3 => if decide (t = tag) then Some ([], s3) else None
          | None => None
          end
      | None =>
          match parse_el n s with
          | Some (c, s1) => cons_fst c <$> parse_children n tag s1
          | None => None
          end
      end
  end.

(** A document: the declaration, then one element and nothing after it. *)
Definition xml_parse (s : pystr) : option element :=
  if py_startswith s xml_decl then
    match parse_el (List.length s) (drop (List.length xml_decl) s) with
    | Some (e, []) => Some e
    | _ => None
    end
  else None.

(** ** Well-formed trees

    The reader splits names at [is_name_end] characters, so the writer's
    names must avoid them; every character must be an XML [Char]; and a
    raw carriage return in text does not survive an XML processor. *)
Definition name_okb (n : pystr) : bool :=
  negb (bool_decide (n = [])) && forallb (fun c => negb (is_name_end c)) n && forallb xml_char n.

Fixpoint el_okb (e : element) : bool :=
  match e with
  | Element tag attrib text cs =>
      name_okb tag && forallb (fun kv => name_okb kv.1 && forallb xml_char kv.2) attrib &&
      (negb (bool_decide (13 ∈ text)) && forallb xml_char text) && forallb el_okb cs
  end.

(** Every string a TwiML verb carries: texts and attribute values. *)
Fixpoint verb_strings (v : verb) : list pystr :=
  match v with
  | Say m => [m]
  | Number (Some n) => [n]
  | Gather i a m _ cs => i :: a :: m :: flat_map verb_strings cs
  | Dial cid cs => option_list cid ++ flat_map verb_strings cs
  | _ => []
  end.

(** The fuel the reader needs for an element. *)
Fixpoint el_weight (e : element) : nat :=
  match e with Element _ _ _ cs => S (S (sum_list_with el_weight cs)) end.

(** ** The escapes are one pass over the text *)

#[local] Hint Rewrite replace_if_eq str_replace_app : screener_rw.

(** Escape one character: a listed character gives a fixed text, any
    other one is left alone by every [replace] of the chain. *)
Local Ltac escape_one c chars :=
  destruct (decide (c ∈ chars)) as [Hin|Hout];
  [ repeat (apply elem_of_cons in Hin as [->|Hin]); [reflexivity .. | by apply not_elem_of_nil in Hin]
  | rewrite !str_replace_other by set_solver;
    repeat (rewrite decide_False by set_solver); reflexivity ].

(** A function on strings that maps the empty string to itself and
    distributes over concatenation works one character at a time. *)
Lemma flat_map_of_app (F : pystr -> pystr) :
  F [] = [] -> (forall s t, F (s ++ t) = F s ++ F t) ->
  forall s, F s = flat_map (fun c => F [c]) s.
Proof.
  intros H0 Happ s. induction s as [|c s IH]; [done|].
  change (c :: s) with ([c] ++ s). by rewrite Happ, IH.
Qed.

Lemma escape_cdata_one_pass (s : pystr) : escape_cdata s = flat_map cdata_char s.
Proof.
  rewrite (flat_map_of_app escape_cdata); [| done | intros; unfold escape_cdata;
    by autorewrite with screener_rw].
  apply flat_map_ext. intros c. unfold escape_cdata, cdata_char.
  autorewrite with screener_rw. escape_one c [38; 60; 62].
Qed.

(** The escaping of attribute values is one pass of [attrib_char]. *)
Lemma escape_attrib_one_pass (s : pystr) : escape_attrib s = flat_map attrib_char s.
Proof.
  rewrite (flat_map_of_app escape_attrib); [| done | intros; unfold escape_attrib;
    by autorewrite with screener_rw].
  apply flat_map_ext. intros c. unfold escape_attrib, attrib_char.
  autorewrite with screener_rw. escape_one c [38; 60; 62; 34; 13; 10; 9].
Qed.

(** ** Reading back escaped text *)

Lemma read_text_plain (attr : bool) (stop c : N) (r : pystr) :
  c <> stop -> c <> 38 -> c <> 13 -> (attr = true -> c <> 9 /\ c <> 10) -> xml_char c = true ->
  read_text attr stop None (c :: r) = cons_fst c <$> read_text attr stop None r.
Proof.
  intros Hs Ha Hcr Ht Hx. cbn [read_text].
  rewrite (proj2 (N.eqb_neq c stop) Hs), (proj2 (N.eqb_neq c 38) Ha),
    (proj2 (N.eqb_neq c 13) Hcr), Hx.
  destruct attr; [|done]. destruct (Ht eq_refl).
  by rewrite (proj2 (N.eqb_neq c 9)), (proj2 (N.eqb_neq c 10)).
Qed.

(** Each escaped character reads back as itself: the listed characters
    through their references, the others as they are. *)
Local Ltac read_one c chars :=
  destruct (decide (c ∈ chars)) as [Hin|Hout];
  [ repeat (apply elem_of_cons in Hin as [->|Hin]); [reflexivity .. | by apply not_elem_of_nil in Hin]
  | repeat (rewrite decide_False by set_solver); apply read_text_plain; (done || set_solver) ].

Lemma read_cdata_char (c : N) (r : pystr) : c <> 13 -> xml_char c = true ->
  read_text false 60 None (cdata_char c ++ r) = cons_fst c <$> read_text false 60 None r.
Proof. intros Hcr Hx. unfold cdata_char. read_one c [38; 60; 62]. Qed.

Lemma read_attrib_char (c : N) (r : pystr) : xml_char c = true ->
  read_text true 34 None (attrib_char c ++ r) = cons_fst c <$> read_text true 34 None r.
Proof. intros Hx. unfold attrib_char. read_one c [38; 60; 62; 34; 13; 10; 9]. Qed.

Lemma read_escaped_cdata (t r : pystr) : 13 ∉ t -> forallb xml_char t = true ->
  read_text false 60 None (escape_cdata t ++ 60 :: r) = Some (t, 60 :: r).
Proof.
  rewrite escape_cdata_one_pass. induction t as [|c t IH]; intros Ht Hx; [done|].
  cbn [forallb] in Hx. apply andb_prop in Hx as [Hc Hx].
  cbn [flat_map]. rewrite <-app_assoc, read_cdata_char, IH by (done || set_solver). done.
Qed.

Lemma read_escaped_attrib (v r : pystr) : forallb xml_char v = true ->
  read_text true 34 None (escape_attrib v ++ 34 :: r) = Some (v, 34 :: r).
Proof.
  rewrite escape_attrib_one_pass. induction v as [|c v IH]; intros Hx; [done|].
  cbn [forallb] in Hx. apply andb_prop in Hx as [Hc Hx].
  cbn [flat_map]. by rewrite <-app_assoc, read_attrib_char, IH.
Qed.

(** ** Reading back names, attributes and elements *)

Lemma strip_app (p s : pystr) : strip p (p ++ s) = Some s.
Proof. unfold strip. by rewrite py_startswith_app, drop_app_length. Qed.

Lemma read_name_ok (n r : pystr) :
  forallb (fun c => negb (is_name_end c)) n = true -> ends_name r = true ->
  read_name (n ++ r) = (n, r).
Proof.
  intros Hn Hr. induction n as [|d n IH]; cbn [read_name app].
  - destruct r as [|c r]; [done|]. cbn [ends_name] in Hr. cbn [read_name]. by rewrite Hr.
  - apply andb_prop in Hn as [Hd Hn]. apply negb_true_iff in Hd. by rewrite Hd, IH.
Qed.

Lemma name_okb_cons (n : pystr) :
  name_okb n = true ->
  exists c n', n = c :: n' /\ is_name_end c = false /\
               forallb (fun c => negb (is_name_end c)) n = true.
Proof.
  unfold name_okb. destruct n as [|c n']; [done|]. intros Hn. exists c, n'.
  apply andb_prop in Hn as [Hn _]. apply andb_prop in Hn as [_ Hn]. split; [done|]. split; [|done].
  cbn in Hn. apply andb_prop in Hn as [Hc _]. by apply negb_true_iff in Hc.
Qed.

Lemma startswith_space_name (c : N) (k r : pystr) :
  is_name_end c = false -> py_startswith (py" " ++ (c :: k) ++ r) py" />" = false.
Proof.
  intros Hc. change (py" />") with [32; 47; 62]. change (py" ") with [32].
  cbn [py_startswith app]. destruct (N.eqb_spec 47 c) as [<-|Hne]; [by compute in Hc|].
  by rewrite andb_false_r.
Qed.

Lemma attr_text_app (k v r : pystr) :
  attr_text (k, v) ++ r = py" " ++ k ++ (py"=" ++ [34]) ++ escape_attrib v ++ [34] ++ r.
Proof. unfold attr_text, dq. cbn [fst snd]. by norm_app. Qed.

Lemma strip_cons (c : N) (s : pystr) : strip [c] (c :: s) = Some s.
Proof. exact (strip_app [c] s). Qed.

Lemma read_attrs_text (n : nat) (kvs : list (pystr * pystr)) (t : pystr) :
  Forall (fun kv => name_okb kv.1 && forallb xml_char kv.2 = true) kvs -> (List.length kvs < n)%nat ->
  (py_startswith t py" />" = true \/ strip py" " t = None) ->
  read_attrs n (flat_map attr_text kvs ++ t) = Some (kvs, t).
Proof.
  intros Hk. revert n. induction Hk as [|[k v] kvs Hkv Hk IH]; intros [|n] Hn Ht; try lia.
  - cbn [read_attrs flat_map app]. destruct (py_startswith t py" />") eqn:E; [done|].
    destruct Ht as [Ht| ->]; [congruence|done].
  - cbn [fst snd] in Hkv. apply andb_prop in Hkv as [Hkv Hv].
    apply name_okb_cons in Hkv as (c & k' & -> & Hc & Hall).
    cbn [read_attrs flat_map]. rewrite <-app_assoc, attr_text_app.
    rewrite startswith_space_name by done.
    rewrite strip_app, read_name_ok by done. rewrite strip_app.
    cbn [app]. rewrite read_escaped_attrib, strip_cons by done. cbn [fmap option_fmap option_map].
    rewrite IH by (cbn in Hn; lia || done). done.
Qed.

Lemma flat_map_attr_length (kvs : list (pystr * pystr)) :
  (List.length kvs <= List.length (flat_map attr_text kvs))%nat.
Proof.
  induction kvs as [|[k v] kvs IH]; [done|]. cbn [flat_map List.length]. rewrite length_app.
  enough (1 <= List.length (attr_text (k, v)))%nat by lia.
  unfold attr_text. rewrite length_app. cbn. lia.
Qed.

Lemma read_attrs_fuel (kvs : list (pystr * pystr)) (t : pystr) :
  (0 < List.length t)%nat -> (List.length kvs < List.length (flat_map attr_text kvs ++ t))%nat.
Proof. pose proof (flat_map_attr_length kvs). rewrite length_app. lia. Qed.

Lemma strip_short_open (x : pystr) : strip py" />" (py">" ++ x) = None.
Proof. reflexivity. Qed.

Lemma ends_name_attrs (kvs : list (pystr * pystr)) (t : pystr) :
  ends_name t = true -> ends_name (flat_map attr_text kvs ++ t) = true.
Proof. destruct kvs as [|[k v] kvs]; [done|]. intros _. reflexivity. Qed.

Lemma serialize_starts (cs : list element) (x : pystr) :
  exists y, flat_map serialize_xml cs ++ py"</" ++ x = 60 :: y.
Proof. destruct cs as [|[] cs]; eexists; reflexivity. Qed.

Lemma strip_close_el (e : element) (x : pystr) :
  el_okb e = true -> strip py"</" (serialize_xml e ++ x) = None.
Proof.
  destruct e as [tag attrib text cs]. cbn [el_okb]. intros Hok.
  apply andb_prop in Hok as [Hok _]. apply andb_prop in Hok as [Hok _].
  apply andb_prop in Hok as [Ht _]. apply name_okb_cons in Ht as (c & k & -> & Hc & _).
  unfold strip. cbn [serialize_xml]. change (py"</") with [60; 47]. change (py"<") with [60].
  cbn [py_startswith app]. destruct (N.eqb_spec 47 c) as [<-|Hne]; [by compute in Hc|].
  by rewrite andb_false_r.
Qed.

Lemma serialize_xml_short (tag : pystr) (attrib : list (pystr * pystr)) :
  serialize_xml (Element tag attrib [] []) = py"<" ++ tag ++ flat_map attr_text attrib ++ py" />".
Proof. reflexivity. Qed.

Lemma serialize_xml_open (tag : pystr) (attrib : list (pystr * pystr)) (text : pystr)
    (cs : list element) :
  ~ (text = [] /\ cs = []) ->
  serialize_xml (Element tag attrib text cs) =
    py"<" ++ tag ++ flat_map attr_text attrib ++ py">" ++ escape_cdata text ++
    flat_map serialize_xml cs ++ py"</" ++ tag ++ py">".
Proof. intros Hne. cbn [serialize_xml]. destruct text, cs; [tauto | done ..]. Qed.

Lemma parse_children_ok (tag : pystr) (cs : list element) :
  list_all element (fun e => forall n rest, el_okb e = true -> (el_weight e <= n)%nat ->
                     parse_el n (serialize_xml e ++ rest) = Some (e, rest)) cs ->
  forall n rest, forallb el_okb cs = true -> forallb (fun c => negb (is_name_end c)) tag = true ->
  (S (sum_list_with el_weight cs) <= n)%nat ->
  parse_children n tag (flat_map serialize_xml cs ++ py"</" ++ tag ++ py">" ++ rest) = Some (cs, rest).
Proof.
  induction 1 as [|c Hc cs Hcs IH]; intros [|n] rest Hok Htag Hn; cbn [sum_list_with] in Hn; try lia.
  - cbn [parse_children flat_map app]. rewrite strip_app, read_name_ok by done.
    rewrite strip_app. by rewrite decide_True.
  - cbn [forallb] in Hok. apply andb_prop in Hok as [Hc1 Hok].
    cbn [parse_children flat_map]. rewrite <-app_assoc, strip_close_el by done.
    assert (2 <= el_weight c)%nat by (destruct c; cbn; lia).
    rewrite Hc by (done || lia). cbn [fmap option_fmap option_map]. rewrite IH by (done || lia). done.
Qed.

Lemma parse_el_serialize (e : element) : forall n rest,
  el_okb e = true -> (el_weight e <= n)%nat ->
  parse_el n (serialize_xml e ++ rest) = Some (e, rest).
Proof.
  induction e as [tag attrib text cs IH]; intros [|n] rest Hok Hn; cbn [el_weight] in Hn; [lia|].
  cbn [el_okb] in Hok. apply andb_prop in Hok as [Hok Hcs]. apply andb_prop in Hok as [Hok Hcr].
  apply andb_prop in Hok as [Htag Hattr]. apply andb_prop in Hcr as [Hcr Htx].
  apply negb_true_iff, bool_decide_eq_false in Hcr.
  apply name_okb_cons in Htag as (c & k & _ & _ & Htag).
  assert (Hattr' : Forall (fun kv => name_okb kv.1 && forallb xml_char kv.2 = true) attrib)
    by by apply forallb_Forall.
  destruct (decide (text = [] /\ cs = [])) as [[-> ->]|Hne].
  - rewrite serialize_xml_short. cbn [parse_el]. rewrite <-!app_assoc, strip_app.
    rewrite read_name_ok by (done || by apply ends_name_attrs).
    rewrite read_attrs_text; [| done | apply read_attrs_fuel; cbn; lia | left; apply py_startswith_app].
    by rewrite strip_app.
  - rewrite serialize_xml_open by done. cbn [parse_el]. rewrite <-!app_assoc, strip_app.
    rewrite read_name_ok by (done || by apply ends_name_attrs).
    rewrite read_attrs_text; [| done | apply read_attrs_fuel; cbn; lia | by right].
    rewrite strip_short_open, strip_app.
    destruct (serialize_starts cs (tag ++ py">" ++ rest)) as [y Hy]. rewrite Hy.
    rewrite read_escaped_cdata by done. rewrite <-Hy.
    by rewrite parse_children_ok by (done || lia).
Qed.

Lemma el_weight_length (e : element) : (el_weight e <= List.length (serialize_xml e))%nat.
Proof.
  induction e as [tag attrib text cs IH].
  destruct (decide (text = [] /\ cs = [])) as [[-> ->]|Hne].
  - rewrite serialize_xml_short. rewrite !length_app. cbn. lia.
  - rewrite serialize_xml_open by done. rewrite !length_app. cbn [el_weight].
    enough (sum_list_with el_weight cs <= List.length (flat_map serialize_xml cs))%nat
      by (cbn; lia).
    clear Hne. induction IH as [|c Hc cs _ IHcs]; [done|].
    cbn [sum_list_with flat_map]. rewrite length_app. lia.
Qed.

Lemma xml_parse_serialize (e : element) :
  el_okb e = true -> xml_parse (xml_decl ++ serialize_xml e) = Some e.
Proof.
  intros Hok. unfold xml_parse. rewrite py_startswith_app, drop_app_length.
  pose proof (parse_el_serialize e (List.length (xml_decl ++ serialize_xml e)) [] Hok) as He.
  rewrite app_nil_r in He. rewrite He; [done|].
  rewrite length_app. pose proof (el_weight_length e). lia.
Qed.

(** ** What the writer emits are XML characters *)

Lemma xml_char_ascii (c : N) : 32 <= c <= 126 -> xml_char c = true.
Proof.
  intros Hc. unfold xml_char. apply orb_true_iff. left. apply orb_true_iff. left.
  apply orb_true_iff. right. apply andb_true_iff. split; apply N.leb_le; lia.
Qed.

Lemma xml_char_not_surrogate (c : N) : xml_char c = true -> is_surrogate c = false.
Proof.
  unfold xml_char, is_surrogate. intros Hc.
  repeat rewrite ?orb_true_iff, ?andb_true_iff, ?N.eqb_eq, ?N.leb_le in Hc.
  destruct (55296 <=? c) eqn:E1; [|done]. destruct (c <=? 57343) eqn:E2; [|done].
  apply N.leb_le in E1, E2. lia.
Qed.

(** Text made of XML characters has no lone surrogate, so the
    [xmlcharrefreplace] handler never fires on it. *)
Lemma xml_encode_id (s : pystr) : forallb xml_char s = true -> xml_encode s = s.
Proof.
  unfold xml_encode. induction s as [|c s IH]; [done|]. cbn [forallb flat_map].
  intros [Hc Hs]%andb_prop. rewrite IH by done. unfold xmlcharref. by rewrite xml_char_not_surrogate.
Qed.

Lemma xml_encode_app (s t : pystr) : xml_encode (s ++ t) = xml_encode s ++ xml_encode t.
Proof. unfold xml_encode. apply List.flat_map_app. Qed.

Lemma xml_encode_cons (c : N) (s : pystr) : xml_encode (c :: s) = xmlcharref c ++ xml_encode s.
Proof. reflexivity. Qed.

Lemma py_str_int_chars (n : N) : forallb xml_char (py_str_int n) = true.
Proof.
  funelim (py_str_int n).
  - cbn [forallb]. rewrite xml_char_ascii by lia. done.
  - rewrite forallb_app. match goal with IH : forallb xml_char _ = true |- _ => rewrite IH end.
    assert (n mod 10 < 10) by (apply N.mod_lt; lia). cbn [forallb]. rewrite xml_char_ascii by div_lia. done.
Qed.

Lemma forallb_escape_cdata (t : pystr) : forallb xml_char (escape_cdata t) = forallb xml_char t.
Proof.
  rewrite escape_cdata_one_pass. induction t as [|c t IH]; [done|].
  cbn [flat_map forallb]. rewrite forallb_app, IH. unfold cdata_char.
  repeat case_decide; subst; cbn [forallb]; by rewrite ?andb_true_r.
Qed.

Lemma forallb_escape_attrib (v : pystr) : forallb xml_char (escape_attrib v) = forallb xml_char v.
Proof.
  rewrite escape_attrib_one_pass. induction v as [|c v IH]; [done|].
  cbn [flat_map forallb]. rewrite forallb_app, IH. unfold attrib_char.
  repeat case_decide; subst; cbn [forallb]; by rewrite ?andb_true_r.
Qed.

Lemma attr_text_chars (kv : pystr * pystr) :
  name_okb kv.1 && forallb xml_char kv.2 = true -> forallb xml_char (attr_text kv) = true.
Proof.
  destruct kv as [k v]. cbn [fst snd]. intros [Hk Hv]%andb_prop. apply andb_prop in Hk as [_ Hk].
  unfold attr_text, dq. cbn [fst snd]. by rewrite !forallb_app, forallb_escape_attrib, Hk, Hv.
Qed.

Lemma serialize_xml_chars (e : element) : el_okb e = true -> forallb xml_char (serialize_xml e) = true.
Proof.
  induction e as [tag attrib text cs IH]. cbn [el_okb].
  intros [[[Htag Hattr]%andb_prop [_ Htx]%andb_prop]%andb_prop Hcs]%andb_prop.
  apply andb_prop in Htag as [_ Htag].
  assert (Ha : forallb xml_char (flat_map attr_text attrib) = true).
  { rewrite forallb_flat_map. apply forallb_forall. intros kv Hkv.
    apply attr_text_chars. exact (proj1 (forallb_forall _ _) Hattr kv Hkv). }
  assert (Hc : forallb xml_char (flat_map serialize_xml cs) = true).
  { clear Ha. induction IH as [|c Hc cs _ IHcs]; [done|]. cbn [forallb] in Hcs.
    apply andb_prop in Hcs as [H1 H2]. cbn [flat_map]. by rewrite forallb_app, Hc, IHcs. }
  destruct (decide (text = [] /\ cs = [])) as [[-> ->]|Hne].
  - rewrite serialize_xml_short, !forallb_app, Htag, Ha. reflexivity.
  - rewrite serialize_xml_open by done. by rewrite !forallb_app, Htag, Ha, forallb_escape_cdata, Htx, Hc.
Qed.

(** ** The trees Twilio builds are well formed *)

Lemma twiml_attrs_ok (kwargs : list (pystr * option attr_value)) :
  Forall (fun kv => name_okb kv.1 = true /\
                    forall v, kv.2 = Some v -> forallb xml_char (str_attr v) = true) kwargs ->
  forallb (fun kv => name_okb kv.1 && forallb xml_char kv.2) (twiml_attrs kwargs) = true.
Proof.
  intros Hk. apply List.forallb_forall. intros kv Hkv. rewrite <-list_elem_of_In in Hkv.
  unfold twiml_attrs in Hkv. rewrite merge_sort_Permutation, list_elem_of_omap in Hkv.
  destruct Hkv as ([k [v|]] & Hin & Hx); [|done]. injection Hx as <-.
  rewrite Forall_forall in Hk. apply Hk in Hin as [Hn Hv]. cbn in *. by rewrite Hn, (Hv v).
Qed.

Local Ltac kwargs_ok :=
  repeat constructor; intros ? [= <-]; cbn [str_attr]; auto using py_str_int_chars.

Lemma verb_children_ok (cs : list verb) :
  list_all verb (fun v => Forall (fun t => 13 ∉ t) (verb_texts v) ->
                          forallb (forallb xml_char) (verb_strings v) = true ->
                          el_okb (verb_el v) = true) cs ->
  Forall (fun t => 13 ∉ t) (flat_map verb_texts cs) ->
  forallb (forallb xml_char) (flat_map verb_strings cs) = true ->
  forallb el_okb (map verb_el cs) = true.
Proof.
  induction 1 as [|v Hv cs _ IH]; [done|]. cbn [flat_map map forallb].
  rewrite Forall_app, forallb_app. intros [H1 H2] [H3 H4]%andb_prop. by rewrite Hv, IH.
Qed.

Lemma verb_el_ok (v : verb) :
  Forall (fun t => 13 ∉ t) (verb_texts v) -> forallb (forallb xml_char) (verb_strings v) = true ->
  el_okb (verb_el v) = true.
Proof.
  induction v as [| m | i a m t cs IH | n | cid cs IH | [p|] | ]; intros Ht Hs; try reflexivity;
    cbn [verb_texts verb_strings forallb] in Ht, Hs; cbn [verb_el el_okb twiml_text].
  - apply Forall_inv in Ht. rewrite andb_true_r in Hs. by rewrite bool_decide_eq_false_2, Hs.
  - apply andb_prop in Hs as [Hi Hs]. apply andb_prop in Hs as [Ha Hs]. apply andb_prop in Hs as [Hm Hs].
    rewrite twiml_attrs_ok by kwargs_ok. by rewrite verb_children_ok.
  - rewrite twiml_attrs_ok by kwargs_ok. reflexivity.
  - rewrite forallb_app in Hs. apply andb_prop in Hs as [Hc Hs].
    rewrite twiml_attrs_ok; [by rewrite verb_children_ok|].
    destruct cid as [c|]; cbn in Hc; [rewrite andb_true_r in Hc|]; kwargs_ok.
  - apply Forall_inv in Ht. rewrite andb_true_r in Hs. by rewrite bool_decide_eq_false_2, Hs.
Qed.


(** ** Properties of the documents on the wire *)

Section WireProperties.
Context `{PyUpper}.

(** C20: with both numbers configured, [connect_call] answers exactly
    [<Response><Dial callerId="..."><Number>...</Number></Dial></Response>]
    after the declaration, the caller id escaped as an attribute value
    and the number as text, each then through the UTF-8 writer's
    [xmlcharrefreplace] (a lone surrogate becomes [&#NNNNN;]). *)
Theorem connect_reply_text (env : environ) (w : world) (tw st : pystr) :
  TWILIO_PHONE_NUMBER env = Some tw -> STEVE_PHONE_NUMBER env = Some st -> st <> [] ->
  reply_xml (fst (connect_call env w)) =
    Some (xml_decl ++ py"<Response><Dial callerId=" ++ dq (xml_encode (escape_attrib tw)) ++
          py"><Number>" ++ xml_encode (escape_cdata st) ++ py"</Number></Dial></Response>").
Proof.
  intros Htw Hst Hne. unfold connect_call. rewrite Htw, Hst. destruct st as [|c st]; [done|].
  cbn [fst]. unfold reply_xml. f_equal. unfold to_xml, response_el, nest, verb_nest, VoiceResponse.
  cbn [app map verb_el twiml_text].
  change (twiml_attrs [(py"callerId", AStr <$> Some tw)]) with [(py"callerId", tw)].
  cbn [serialize_xml flat_map]. unfold attr_text, dq. cbn [fst snd]. norm_app.
  repeat rewrite ?xml_encode_app, ?xml_encode_cons. reflexivity.
Qed.

(** C22: with [STEVE_PHONE_NUMBER] unset, [connect_call] still answers:
    [Number(None)] has no value and is written [<Number />], a [Dial]
    with no number to call, which the TwiML rules reject. *)
Theorem connect_unset_number (env : environ) (w : world) :
  STEVE_PHONE_NUMBER env = None ->
  reply_xml (fst (connect_call env w)) =
    Some (xml_decl ++ py"<Response><Dial" ++
          xml_encode (flat_map attr_text (twiml_attrs [(py"callerId", AStr <$> TWILIO_PHONE_NUMBER env)])) ++
          py"><Number /></Dial></Response>") /\
  (forall doc, fst (connect_call env w) = XmlReply doc -> response_ok doc = false).
Proof.
  intros Hst. unfold connect_call. rewrite Hst. split; [|intros doc [= <-]; reflexivity].
  cbn [fst]. unfold reply_xml. f_equal. unfold to_xml, response_el, nest, verb_nest, VoiceResponse.
  cbn [app map verb_el twiml_text serialize_xml flat_map]. norm_app.
  repeat rewrite ?xml_encode_app, ?xml_encode_cons. reflexivity.
Qed.

(** C21: a caller whose number starts with '+100' gets exactly
    [<Response><Reject /></Response>] after the declaration. *)
Theorem voice_spam_reply_text (f : form) (w : world) (num : pystr) :
  form_get f py"From" = Some num -> py_startswith num py"+100" = true ->
  reply_xml (fst (voice f w)) = Some (xml_decl ++ py"<Response><Reject /></Response>").
Proof. intros HF HP. unfold voice. rewrite HF. cbn [orb]. rewrite HP. reflexivity. Qed.

(** C19: every document any request gets back follows the TwiML rules
    ([response_ok]: [Say] has text, [Gather] nests only [Say] and [Pause],
    [Dial] nests a [Number] with a number), once [STEVE_PHONE_NUMBER] is
    set to a non-empty string. *)
Theorem dispatch_documents_ok (env : environ) (rq : request) (w : world) (doc : response)
    (c : N) (s : pystr) :
  STEVE_PHONE_NUMBER env = Some (c :: s) ->
  fst (dispatch env rq w) = XmlReply doc -> response_ok doc = true.
Proof.
  intros Hst Hd. apply dispatch_xml in Hd as [v Hv].
  destruct v; cbn [run_view] in Hv.
  - unfold voice in Hv. destruct (form_get _ _); [destruct (_ || _)|]; by simplify_eq/=.
  - unfold screen in Hv. injection Hv as <-. reflexivity.
  - unfold connect_call in Hv. rewrite Hst in Hv. injection Hv as <-. reflexivity.
  - unfold reject_call in Hv. injection Hv as <-. reflexivity.
  - done.
  - done.
Qed.

End WireProperties.

(** ** Witnesses *)


Lemma connect_reply_text_witness :
  TWILIO_PHONE_NUMBER sample_env = Some py"+15550001111" /\
  STEVE_PHONE_NUMBER sample_env = Some py"+15559998888" /\ py"+15559998888" <> [] /\
  reply_xml (fst (connect_call sample_env world_init)) =
    Some (xml_decl ++ py"<Response><Dial callerId=" ++ dq (xml_encode (escape_attrib py"+15550001111")) ++
          py"><Number>" ++ xml_encode (escape_cdata py"+15559998888") ++ py"</Number></Dial></Response>").
Proof.
  do 2 (split; [reflexivity|]). split; [discriminate|].
  apply connect_reply_text; [reflexivity | reflexivity | discriminate].
Defined.

Lemma connect_unset_number_witness :
  let env := {| TWILIO_PHONE_NUMBER := Some py"+15550001111"; STEVE_PHONE_NUMBER := None |} in
  STEVE_PHONE_NUMBER env = None /\
  reply_xml (fst (connect_call env world_init)) =
    Some (xml_decl ++ py"<Response><Dial" ++
          xml_encode (flat_map attr_text (twiml_attrs [(py"callerId", AStr <$> TWILIO_PHONE_NUMBER env)])) ++
          py"><Number /></Dial></Response>") /\
  (forall doc, fst (connect_call env world_init) = XmlReply doc -> response_ok doc = false).
Proof. intros env. split; [reflexivity|]. apply connect_unset_number. reflexivity. Defined.

Lemma voice_spam_reply_text_witness :
  form_get [(py"From", py"+1005550100")] py"From" = Some py"+1005550100" /\
  py_startswith py"+1005550100" py"+100" = true /\
  reply_xml (fst (voice [(py"From", py"+1005550100")] world_init)) =
    Some (xml_decl ++ py"<Response><Reject /></Response>").
Proof.
  do 2 (split; [reflexivity|]).
  apply (voice_spam_reply_text _ _ py"+1005550100"); reflexivity.
Defined.

Lemma dispatch_documents_ok_witness :
  let rq := post_req py"/connect" [] in
  STEVE_PHONE_NUMBER sample_env = Some (43%N :: py"15559998888") /\
  fst (dispatch sample_env rq world_init) =
    XmlReply [Dial (Some py"+15550001111") [Number (Some py"+15559998888")]] /\
  response_ok [Dial (Some py"+15550001111") [Number (Some py"+15559998888")]] = true.
Proof.
  intros rq. split; [reflexivity|]. split; [vm_compute; reflexivity|].
  apply (dispatch_documents_ok sample_env rq world_init _ 43%N py"15559998888");
    vm_compute; reflexivity.
Defined.
