(* ===== verification/Json.v ===== *)
(** * The status reply as JSON text, and its decoding by the dashboard

    [get_status] answers [jsonify(latest_call)] (src/main.py, line 79).
    Flask's default JSON provider calls [json.dumps] with [sort_keys=True]
    and [ensure_ascii=True], compact separators outside debug mode, and
    appends a newline.  With [ensure_ascii], CPython escapes every
    character outside printable ASCII ([ascii_escape_unichar] of
    Modules/_json.c): the short escapes for backslash, quote, \b \f \n \r \t,
    [\uXXXX] in lower-case hex otherwise, and a surrogate pair of two
    [\uXXXX] for a code point above U+FFFF.

    The dashboard reads the reply with [res.json()] (line 92), the
    browser's [JSON.parse]: its strings are sequences of UTF-16 code units.
    [js_parse] is that parser on the fragment of JSON the reply uses
    (objects, strings, null); [utf16] is the UTF-16 form of a code-point
    string.  The round trip theorem is in the second half of the file. *)

From stdpp Require Import base list sorting.
From Stdlib Require Import NArith String Lia.
From S2P Require Import Prelude PyStr Form TwiML CallState Handlers Server.

Open Scope N_scope.
#[local] Set Warnings "-register-all".

(** ** Python's side: [json.dumps] *)

Inductive json : Type :=
| JNull
| JStr (s : pystr)
| JObj (members : list (pystr * json)).

(** [Py_hexdigits[d]] *)
Definition hex_digit (d : N) : N := if d <? 10 then 48 + d else 87 + d.

(** The four hex digits of a 16-bit value, most significant first. *)
Definition hex4 (v : N) : list N :=
  [hex_digit (N.land (N.shiftr v 12) 15); hex_digit (N.land (N.shiftr v 8) 15);
   hex_digit (N.land (N.shiftr v 4) 15); hex_digit (N.land v 15)].

(** [Py_UNICODE_HIGH_SURROGATE] and [Py_UNICODE_LOW_SURROGATE]. *)
Definition high_surrogate (c : N) : N := 55296 - N.shiftr 65536 10 + N.shiftr c 10.
Definition low_surrogate (c : N) : N := 56320 + N.land c 1023.

(** [S_CHAR(c)]: printable ASCII other than backslash and quote. *)
Definition s_char (c : N) : bool := (32 <=? c) && (c <=? 126) && negb (c =? 92) && negb (c =? 34).

(** [ascii_escape_unichar]: the escape of one character. *)
Definition ascii_escape_unichar (c : N) : list N :=
  92 :: (if c =? 92 then [92]
         else if c =? 34 then [34]
         else if c =? 8 then [98]
         else if c =? 12 then [102]
         else if c =? 10 then [110]
         else if c =? 13 then [114]
         else if c =? 9 then [116]
         else if 65536 <=? c then 117 :: hex4 (high_surrogate c) ++ 92 :: 117 :: hex4 (low_surrogate c)
         else 117 :: hex4 c).

(** One character of the string: itself when [S_CHAR], else escaped. *)
Definition escape_char (c : N) : list N := if s_char c then [c] else ascii_escape_unichar c.

(** [ascii_escape_unicode]: the quoted, escaped string. *)
Definition encode_str (s : pystr) : list N := 34 :: flat_map escape_char s ++ [34].

(** [json.dumps] with separators (",", ":"). *)
Fixpoint dumps (j : json) : list N :=
  match j with
  | JNull => py"null"
  | JStr s => encode_str s
  | JObj ms =>
      let fix members (ms : list (pystr * json)) : list N :=
        match ms with
        | [] => []
        | [(k, v)] => encode_str k ++ 58 :: dumps v
        | (k, v) :: ms' => encode_str k ++ 58 :: dumps v ++ 44 :: members ms'
        end in
      123 :: members ms ++ [125]
  end.

(** A [str] or [None] value of the dict. *)
Definition json_of_opt (o : option pystr) : json :=
  match o with Some s => JStr s | None => JNull end.

(** The items of [latest_call], in insertion order. *)
Definition call_items (c : call_state) : list (pystr * json) :=
  [(py"from", json_of_opt (call_from c));
   (py"speech", json_of_opt (call_speech c));
   (py"status", JStr (status_str (call_status c)))].

Definition key_le (kv1 kv2 : pystr * json) : Prop := str_leb kv1.1 kv2.1 = true.

#[export] Instance key_le_dec : RelDecision key_le.
Proof. intros x y. unfold key_le. apply _. Defined.

(** [sort_keys=True]: the items sorted by key (a stable sort). *)
Definition sort_keys (items : list (pystr * json)) : list (pystr * json) :=
  merge_sort key_le items.

(** The members of an object as [dumps] writes them, for the lemmas. *)
Fixpoint members_text (ms : list (pystr * json)) : list N :=
  match ms with
  | [] => []
  | [(k, v)] => encode_str k ++ 58 :: dumps v
  | (k, v) :: ms' => encode_str k ++ 58 :: dumps v ++ 44 :: members_text ms'
  end.

(** The body of the [/status] reply: [f"{dumps(obj)}\n"]. *)
Definition jsonify_body (c : call_state) : list N :=
  dumps (JObj (sort_keys (call_items c))) ++ [10].

(** ** The browser's side: [JSON.parse] *)

(** A JavaScript value; a string is its UTF-16 code units. *)
Inductive jsval : Type :=
| JSNull
| JSStr (units : list N)
| JSObj (members : list (list N * jsval)).

(** The UTF-16 code units of a code-point string. *)
Definition utf16_char (c : N) : list N :=
  if c <? 65536 then [c]
  else [55296 + N.shiftr (c - 65536) 10; 56320 + N.land (c - 65536) 1023].

Definition utf16 (s : pystr) : list N := flat_map utf16_char s.

(** JSON whitespace. *)
Definition is_ws (c : N) : bool := (c =? 32) || (c =? 9) || (c =? 10) || (c =? 13).

Fixpoint skip_ws (s : list N) : list N :=
  match s with
  | c :: r => if is_ws c then skip_ws r else s
  | [] => []
  end.

Definition hex_val (c : N) : option N :=
  if (48 <=? c) && (c <=? 57) then Some (c - 48)
  else if (97 <=? c) && (c <=? 102) then Some (c - 87)
  else if (65 <=? c) && (c <=? 70) then Some (c - 55)
  else None.

Definition hex4_val (a b c d : N) : option N :=
  match hex_val a, hex_val b, hex_val c, hex_val d with
  | Some x, Some y, Some z, Some t => Some (4096 * x + 256 * y + 16 * z + t)
  | _, _, _, _ => None
  end.

(** The one-character escapes of JSON. *)
Definition short_escape (e : N) : option N :=
  if e =? 34 then Some 34 else if e =? 92 then Some 92 else if e =? 47 then Some 47
  else if e =? 98 then Some 8 else if e =? 102 then Some 12 else if e =? 110 then Some 10
  else if e =? 114 then Some 13 else if e =? 116 then Some 9 else None.

(** The rest of a string literal after its opening quote: its code units
    and what follows the closing quote. *)
Fixpoint parse_str (s : list N) : option (list N * list N) :=
  match s with
  | [] => None
  | c :: r =>
      if c =? 34 then Some ([], r)
      else if c =? 92 then
        match r with
        | [] => None
        | e :: r' =>
            if e =? 117 then
              match r' with
              | a :: b :: c' :: d :: r'' =>
                  match hex4_val a b c' d, parse_str r'' with
                  | Some u, Some (us, rest) => Some (u :: us, rest)
                  | _, _ => None
                  end
              | _ => None
              end
            else
              match short_escape e, parse_str r' with
              | Some u, Some (us, rest) => Some (u :: us, rest)
              | _, _ => None
              end
        end
      else if c <? 32 then None
      else match parse_str r with
           | Some (us, rest) => Some (c :: us, rest)
           | None => None
           end
  end.

(** A value, and the members of an object after its opening brace; the
    fuel bounds the nesting and the number of members. *)
Fixpoint parse_value (fuel : nat) (s : list N) : option (jsval * list N) :=
  match fuel with
  | O => None
  | S n =>
      match skip_ws s with
      | [] => None
      | c :: r =>
          if c =? 34 then
            match parse_str r with Some (u, rest) => Some (JSStr u, rest) | None => None end
          else if c =? 123 then
            match skip_ws r with
            | d :: r' => if d =? 125 then Some (JSObj [], r') else parse_members n (skip_ws r) []
            | [] => None
            end
          else if py_startswith (c :: r) py"null" then Some (JSNull, drop 4 (c :: r))
          else None
      end
  end
with parse_members (fuel : nat) (s : list N) (acc : list (list N * jsval))
    : option (jsval * list N) :=
  match fuel with
  | O => None
  | S n =>
      match s with
      | c :: r =>
          if c =? 34 then
            match parse_str r with
            | Some (k, r1) =>
                match skip_ws r1 with
                | d :: r2 =>
                    if d =? 58 then
                      match parse_value n r2 with
                      | Some (v, r3) =>
                          match skip_ws r3 with
                          | e :: r4 =>
                              if e =? 44 then parse_members n (skip_ws r4) (acc ++ [(k, v)])
                              else if e =? 125 then Some (JSObj (acc ++ [(k, v)]), r4)
                              else None
                          | [] => None
                          end
                      | None => None
                      end
                    else None
                | [] => None
                end
            | None => None
            end
          else None
      | [] => None
      end
  end.

(** [JSON.parse(text)]: one value and nothing but whitespace after it. *)
Definition js_parse (s : list N) : option jsval :=
  match parse_value (List.length s) s with
  | Some (v, rest) => if forallb is_ws rest then Some v else None
  | None => None
  end.

(** What [JSON.parse] should give for a Python value. *)
Fixpoint js_of_json (j : json) : jsval :=
  match j with
  | JNull => JSNull
  | JStr s => JSStr (utf16 s)
  | JObj ms => JSObj (map (fun '(k, v) => (utf16 k, js_of_json v)) ms)
  end.

(** Every character is a Unicode code point (below U+110000). *)
Definition valid_str (s : pystr) : Prop := Forall (fun c => c < 1114112) s.

(** A value is flat when it is [null] or a valid string. *)
Definition flat_val (v : json) : Prop :=
  match v with JNull => True | JStr s => valid_str s | JObj _ => False end.

Definition flat_member (kv : pystr * json) : Prop := valid_str kv.1 /\ flat_val kv.2.

Definition valid_opt (o : option pystr) : Prop :=
  match o with Some s => valid_str s | None => True end.

(** A printable ASCII code unit. *)
Definition printable (u : N) : Prop := 32 <= u <= 126.

(** ** Arithmetic of the escapes *)

Lemma hex_val_digit (d : N) : d < 16 -> hex_val (hex_digit d) = Some d.
Proof.
  intros Hd. unfold hex_digit, hex_val.
  destruct (N.ltb_spec d 10); case_bools;
    repeat match goal with H : (_ && _)%bool = _ |- _ => apply andb_prop in H as [? ?] || apply andb_false_iff in H end;
    rewrite ?N.leb_le, ?N.leb_gt in *; try (f_equal; lia); lia.
Qed.

Lemma nibble_bound (v : N) (k : N) : N.land (N.shiftr v k) 15 < 16.
Proof.
  change 15 with (N.ones 4). rewrite N.land_ones. apply N.mod_lt. lia.
Qed.

Lemma nibble_div (v : N) (k : N) : N.land (N.shiftr v k) 15 = (v / 2 ^ k) mod 16.
Proof. change 15 with (N.ones 4). by rewrite N.land_ones, N.shiftr_div_pow2. Qed.

(** The four hex digits read back give the 16-bit value. *)
Lemma hex4_val_hex4 (v : N) : v < 65536 ->
  match hex4 v with [a; b; c; d] => hex4_val a b c d | _ => None end = Some v.
Proof.
  intros Hv. unfold hex4, hex4_val. change (N.land v 15) with (N.land (N.shiftr v 0) 15).
  rewrite !hex_val_digit by apply nibble_bound.
  f_equal. rewrite !nibble_div.
  change (2 ^ 12) with 4096. change (2 ^ 8) with 256. change (2 ^ 4) with 16.
  change (2 ^ 0) with 1. rewrite N.div_1_r. div_lia.
Qed.

(** CPython's surrogate macros compute the UTF-16 surrogates of an astral
    code point, and both are 16-bit values. *)
Lemma surrogates_utf16 (c : N) : 65536 <= c < 1114112 ->
  high_surrogate c = 55296 + N.shiftr (c - 65536) 10 /\
  low_surrogate c = 56320 + N.land (c - 65536) 1023 /\
  55296 <= high_surrogate c < 56320 /\ 56320 <= low_surrogate c < 57344.
Proof.
  intros Hc. unfold high_surrogate, low_surrogate.
  change 1023 with (N.ones 10). rewrite !N.land_ones, !N.shiftr_div_pow2.
  change (2 ^ 10) with 1024. change (N.shiftr 65536 10) with 64.
  repeat split; div_lia.
Qed.

Lemma utf16_char_bmp (c : N) : c < 65536 -> utf16_char c = [c].
Proof. intros Hc. unfold utf16_char. destruct (N.ltb_spec c 65536); [done | lia]. Qed.

Lemma s_char_spec (c : N) :
  s_char c = true <-> 32 <= c <= 126 /\ c <> 92 /\ c <> 34.
Proof.
  unfold s_char. rewrite !andb_true_iff, !negb_true_iff, !N.leb_le, !N.eqb_neq. tauto.
Qed.

(** Decoding the escape of one character gives its UTF-16 code units. *)
Lemma parse_str_escape_char (c : N) (t : list N) : c < 1114112 ->
  parse_str (escape_char c ++ t) =
  match parse_str t with Some (us, r) => Some (utf16_char c ++ us, r) | None => None end.
Proof.
  intros Hc. unfold escape_char. destruct (s_char c) eqn:Hs.
  - apply s_char_spec in Hs as (Hr & H92 & H34).
    rewrite utf16_char_bmp by lia. cbn [app parse_str].
    destruct (N.eqb_spec c 34), (N.eqb_spec c 92), (N.ltb_spec c 32); try lia. done.
  - unfold ascii_escape_unichar.
    destruct (N.eqb_spec c 92) as [->|]; [done|].
    destruct (N.eqb_spec c 34) as [->|]; [done|].
    destruct (N.eqb_spec c 8) as [->|]; [done|].
    destruct (N.eqb_spec c 12) as [->|]; [done|].
    destruct (N.eqb_spec c 10) as [->|]; [done|].
    destruct (N.eqb_spec c 13) as [->|]; [done|].
    destruct (N.eqb_spec c 9) as [->|]; [done|].
    destruct (N.leb_spec 65536 c).
    + destruct (surrogates_utf16 c) as (Hh & Hl & Hhb & Hlb); [lia|].
      pose proof (hex4_val_hex4 (high_surrogate c) ltac:(lia)) as Eh.
      pose proof (hex4_val_hex4 (low_surrogate c) ltac:(lia)) as El.
      unfold hex4 in Eh, El |- *. cbn [app parse_str N.eqb Pos.eqb].
      rewrite Eh. cbn [app parse_str N.eqb Pos.eqb]. rewrite El.
      unfold utf16_char. destruct (N.ltb_spec c 65536); [lia|].
      destruct (parse_str t) as [[us r]|]; [|done]. by rewrite <-Hh, <-Hl.
    + pose proof (hex4_val_hex4 c ltac:(lia)) as E.
      unfold hex4 in E |- *. cbn [app parse_str N.eqb Pos.eqb]. rewrite E.
      rewrite utf16_char_bmp by lia. done.
Qed.

Lemma parse_str_escaped (s : pystr) (rest : list N) : valid_str s ->
  parse_str (flat_map escape_char s ++ 34 :: rest) = Some (utf16 s, rest).
Proof.
  induction 1 as [|c s Hc _ IH]; [done|].
  cbn [flat_map]. rewrite <-app_assoc, parse_str_escape_char, IH by done. done.
Qed.

(** A valid string is read back as its UTF-16 code units. *)
Lemma parse_value_str (n : nat) (s : pystr) (rest : list N) : valid_str s ->
  parse_value (S n) (encode_str s ++ rest) = Some (JSStr (utf16 s), rest).
Proof.
  intros Hs. unfold encode_str. cbn [app]. rewrite <-app_assoc. cbn -[parse_str].
  by rewrite parse_str_escaped.
Qed.

Lemma parse_value_null (n : nat) (rest : list N) :
  parse_value (S n) (py"null" ++ rest) = Some (JSNull, rest).
Proof. done. Qed.

Lemma parse_value_flat (n : nat) (v : json) (rest : list N) : flat_val v ->
  parse_value (S n) (dumps v ++ rest) = Some (js_of_json v, rest).
Proof.
  destruct v as [|s|ms]; cbn [dumps js_of_json flat_val]; intros Hv;
    [done | by apply parse_value_str | done].
Qed.

Lemma dumps_obj (ms : list (pystr * json)) :
  dumps (JObj ms) = 123 :: members_text ms ++ [125].
Proof. reflexivity. Qed.

Lemma members_text_head (ms : list (pystr * json)) :
  ms <> [] -> exists t, members_text ms = 34 :: t.
Proof.
  destruct ms as [|[k v] [|kv ms]]; [done | |]; intros _; cbn [members_text];
    unfold encode_str; eexists; done.
Qed.

(** One member: key, colon and flat value, then what follows decides. *)
Lemma parse_members_step (n : nat) (k : pystr) (v : json) (t : list N)
    (acc : list (list N * jsval)) :
  valid_str k -> flat_val v ->
  parse_members (S (S n)) (encode_str k ++ 58 :: dumps v ++ t) acc =
  match skip_ws t with
  | e :: r4 =>
      if e =? 44 then parse_members (S n) (skip_ws r4) (acc ++ [(utf16 k, js_of_json v)])
      else if e =? 125 then Some (JSObj (acc ++ [(utf16 k, js_of_json v)]), r4)
      else None
  | [] => None
  end.
Proof.
  intros Hk Hv. unfold encode_str. cbn [app]. rewrite <-!app_assoc.
  cbn [parse_members N.eqb Pos.eqb app]. rewrite parse_str_escaped by done.
  cbn [skip_ws is_ws orb N.eqb Pos.eqb]. by rewrite parse_value_flat.
Qed.

(** The members of a flat object are read back in order, given more
    fuel than there are members. *)
Lemma parse_members_flat (ms : list (pystr * json)) (n : nat)
    (acc : list (list N * jsval)) (rest : list N) :
  ms <> [] -> Forall flat_member ms -> (List.length ms < n)%nat ->
  parse_members n (members_text ms ++ 125 :: rest) acc =
  Some (JSObj (acc ++ map (fun '(k, v) => (utf16 k, js_of_json v)) ms), rest).
Proof.
  revert n acc. induction ms as [|[k v] ms IH]; intros n acc Hne Hf Hn; [done|].
  apply Forall_cons in Hf as [[Hk Hv] Hf].
  destruct n as [|[|n]]; simpl in Hn; [lia|lia|].
  destruct ms as [|kv ms'].
  - cbn [members_text]. norm_app. by rewrite parse_members_step.
  - change (members_text ((k, v) :: kv :: ms'))
      with (encode_str k ++ 58 :: dumps v ++ 44 :: members_text (kv :: ms')).
    norm_app. rewrite parse_members_step by done.
    destruct (members_text_head (kv :: ms')) as [t Ht]; [done|].
    cbn [skip_ws is_ws orb N.eqb Pos.eqb]. rewrite Ht. cbn [app skip_ws is_ws orb N.eqb Pos.eqb].
    rewrite app_comm_cons, <-Ht, IH; [| done | done | simpl in *; lia].
    by rewrite <-app_assoc.
Qed.

Lemma parse_value_flat_obj (n : nat) (ms : list (pystr * json)) (rest : list N) :
  ms <> [] -> Forall flat_member ms -> (List.length ms < n)%nat ->
  parse_value (S n) (dumps (JObj ms) ++ rest) = Some (js_of_json (JObj ms), rest).
Proof.
  intros Hne Hf Hn. rewrite dumps_obj. destruct (members_text_head ms) as [t Ht]; [done|].
  norm_app. rewrite Ht. cbn [parse_value skip_ws is_ws orb N.eqb Pos.eqb app].
  rewrite app_comm_cons, <-Ht. by rewrite parse_members_flat.
Qed.

Lemma lit_valid (s : string) : valid_str (lit s).
Proof. eapply Forall_impl; [apply lit_ascii | simpl; lia]. Qed.

Lemma call_items_flat (c : call_state) :
  valid_opt (call_from c) -> valid_opt (call_speech c) -> Forall flat_member (call_items c).
Proof.
  intros Hf Hs. unfold call_items, flat_member.
  repeat constructor; simpl; try apply lit_valid.
  - by destruct (call_from c).
  - by destruct (call_speech c).
  - destruct (call_status c); apply lit_valid.
Qed.

Lemma sort_keys_call_items (c : call_state) : sort_keys (call_items c) = call_items c.
Proof. reflexivity. Qed.

Lemma encode_str_length (s : pystr) : (2 <= List.length (encode_str s))%nat.
Proof. unfold encode_str. cbn [List.length app]. rewrite length_app. simpl. lia. Qed.

Lemma members_text_length (ms : list (pystr * json)) :
  (List.length ms <= List.length (members_text ms))%nat.
Proof.
  induction ms as [|[k v] ms IH]; [simpl; lia|].
  pose proof (encode_str_length k).
  destruct ms as [|kv ms].
  - cbn [members_text List.length]. rewrite length_app. simpl. lia.
  - change (members_text ((k, v) :: kv :: ms))
      with (encode_str k ++ 58 :: dumps v ++ 44 :: members_text (kv :: ms)).
    rewrite !length_app. cbn [List.length] in *. rewrite !length_app. cbn [List.length]. lia.
Qed.

(** [JSON.parse] reads back any non-empty flat object [dumps] writes,
    followed by Flask's newline. *)
Lemma js_parse_flat_obj (ms : list (pystr * json)) :
  ms <> [] -> Forall flat_member ms ->
  js_parse (dumps (JObj ms) ++ [10]) = Some (js_of_json (JObj ms)).
Proof.
  intros Hne Hf. unfold js_parse.
  assert (Hlen : (S (List.length ms) < List.length (dumps (JObj ms) ++ [10%N]))%nat).
  { rewrite dumps_obj. cbn [List.length app]. rewrite !length_app.
    pose proof (members_text_length ms). simpl. lia. }
  destruct (List.length (dumps (JObj ms) ++ [10%N])) as [|n]; [lia|].
  rewrite parse_value_flat_obj; [done | done | done | simpl in *; lia].
Qed.

(** C12: round trip of the status reply.  For any store whose strings are
    Unicode text, the dashboard's [JSON.parse] of the [/status] body gives
    an object with the keys "from", "speech" and "status" in this order,
    [null] for a missing value, and the UTF-16 form of each stored string:
    no character of the caller's number or speech is lost or altered by
    the escaping. *)
Theorem status_json_roundtrip (c : call_state) :
  valid_opt (call_from c) -> valid_opt (call_speech c) ->
  js_parse (jsonify_body c) = Some (js_of_json (JObj (call_items c))).
Proof.
  intros Hf Hs. unfold jsonify_body. rewrite sort_keys_call_items.
  apply js_parse_flat_obj; [done | by apply call_items_flat].
Qed.

Lemma hex_digit_printable (d : N) : d < 16 -> printable (hex_digit d).
Proof. unfold printable, hex_digit. intros Hd. destruct (N.ltb_spec d 10); lia. Qed.

Lemma hex4_printable (v : N) : Forall printable (hex4 v).
Proof.
  unfold hex4. repeat (constructor; [apply hex_digit_printable|]); try constructor;
    change 15 with (N.ones 4); rewrite N.land_ones; apply N.mod_lt; lia.
Qed.

Local Ltac solve_printable :=
  repeat match goal with
  | |- Forall _ [] => constructor
  | |- Forall _ (_ :: _) => apply Forall_cons; split
  | |- Forall _ (_ ++ _) => apply Forall_app; split
  | |- Forall printable (hex4 _) => apply hex4_printable
  | |- printable _ => unfold printable; lia
  end.

Lemma escape_char_printable (c : N) : Forall printable (escape_char c).
Proof.
  unfold escape_char. destruct (s_char c) eqn:Hs.
  - apply s_char_spec in Hs. solve_printable.
  - unfold ascii_escape_unichar. case_bools; solve_printable.
Qed.

Lemma encode_str_printable (s : pystr) : Forall printable (encode_str s).
Proof.
  unfold encode_str. solve_printable.
  apply Forall_flat_map, Forall_forall. intros c _. apply escape_char_printable.
Qed.

(** C13: the [/status] body is printable ASCII followed by one newline,
    whatever the caller said: every character outside printable ASCII,
    control characters and emoji included, is escaped. *)
Theorem jsonify_body_ascii (c : call_state) :
  exists b, jsonify_body c = b ++ [10] /\ Forall printable b.
Proof.
  eexists. split; [reflexivity|]. rewrite sort_keys_call_items, dumps_obj.
  assert (Hv : forall o, Forall printable (dumps (json_of_opt o))).
  { intros [s|]; [apply encode_str_printable|].
    apply Forall_forall. intros x Hx. vm_compute in Hx. apply list_elem_of_In in Hx.
    repeat destruct Hx as [<- | Hx]; [unfold printable; lia .. | contradiction]. }
  unfold call_items. cbn [members_text].
  repeat match goal with
  | |- Forall printable (encode_str _) => apply encode_str_printable
  | |- Forall printable (dumps (json_of_opt _)) => apply Hv
  | |- Forall printable (dumps (JStr _)) => apply encode_str_printable
  | |- _ => progress solve_printable
  end.
Qed.

Lemma status_json_roundtrip_witness :
  let c := {| call_from := Some py"+15551234567";
              call_speech := Some [72; 105; 10; 34; 233; 128512];
              call_status := waiting |} in
  valid_opt (call_from c) /\ valid_opt (call_speech c) /\
  js_parse (jsonify_body c) = Some (js_of_json (JObj (call_items c))).
Proof.
  intros c.
  assert (Hf : valid_opt (call_from c)) by apply lit_valid.
  assert (Hs : valid_opt (call_speech c)) by (repeat constructor; lia).
  split; [exact Hf|]. split; [exact Hs|].
  apply (status_json_roundtrip c Hf Hs).
Defined.
