(* ===== verification/Dashboard.v ===== *)
(** * The operator's dashboard and the whole system

    The page served at "/" (src/main.py, lines 84-118) holds two text
    fields, "from" and "speech", first "None" and "Waiting...".  Its script
    polls [/status] every second ([fetchStatus], lines 90-95): it parses the
    reply with [res.json()] and writes [data.from || "None"] and
    [data.speech || "Waiting..."] into the fields; [||] keeps its left side
    only when it is truthy, so [null], a missing key and the empty string
    all show the placeholder.  The two buttons ([connect], [reject],
    lines 97-105) post to the action routes and then raise an alert,
    whatever the reply.  A property read on [null] raises a TypeError that
    ends [fetchStatus] without touching the page.

    The system is the server's world and the page together; it moves by
    a provider request, a poll of the page, or a click ([sys_step]).

    [setInterval(fetchStatus, 1000)] (line 107) does not wait for the
    previous [await fetch] to finish, so several polls can be in flight
    at once. [async_step] models this: a poll's request is answered by
    the server when it is sent, and its reply waits in [a_inflight] until
    the browser handles it, in any order.  The server side of this model
    handles requests in turn, as [Server.run] does; what threads add
    inside a request is the subject of [Threads].  A late reply can leave
    the page on an older caller than the store holds (C27). *)

From stdpp Require Import base list relations.
From Stdlib Require Import NArith String Lia.
From S2P Require Import Prelude PyStr Form TwiML CallState Handlers Server Json.

Record page : Type := {
  from_text : list N;      (** innerText of #from, UTF-16 units *)
  speech_text : list N;    (** innerText of #speech *)
  alerts : list pystr      (** the alerts raised so far *)
}.

(** The page as the browser first renders it (lines 112-113). *)
Definition page_init : page :=
  {| from_text := py"None"; speech_text := py"Waiting..."; alerts := [] |}.

(** A property read: [undefined] or a value. *)
Inductive jsprop : Type := Undefined | Defined (v : jsval).

(** [obj.key]: the last binding of the key, as [JSON.parse] keeps it. *)
Definition js_get (o : jsval) (k : list N) : jsprop :=
  match o with
  | JSObj ms =>
      match find (fun kv => bool_decide (kv.1 = k)) (rev ms) with
      | Some (_, v) => Defined v
      | None => Undefined
      end
  | _ => Undefined
  end.

(** [p || d] assigned to [innerText]: a non-empty string is kept, an
    object shows as "[object Object]", anything falsy gives [d]. *)
Definition js_or_text (p : jsprop) (d : list N) : list N :=
  match p with
  | Defined (JSStr []) => d
  | Defined (JSStr u) => u
  | Defined (JSObj _) => py"[object Object]"
  | _ => d
  end.

(** [fetchStatus] on the body of the [/status] reply. *)
Definition fetch_status (body : list N) (pg : page) : page :=
  match js_parse body with
  | None => pg                      (* res.json() rejects *)
  | Some JSNull => pg               (* data.from on null: TypeError *)
  | Some data =>
      {| from_text := js_or_text (js_get data py"from") py"None";
         speech_text := js_or_text (js_get data py"speech") py"Waiting...";
         alerts := alerts pg |}
  end.

Definition alert (msg : pystr) (pg : page) : page :=
  {| from_text := from_text pg; speech_text := speech_text pg; alerts := alerts pg ++ [msg] |}.

(** The reply body the browser receives for a [/status] request. *)
Definition reply_body (r : reply) : option (list N) :=
  match r with JsonReply c => Some (jsonify_body c) | _ => None end.

Section System.
Context `{PyUpper}.
Variable env : environ.

(** The interval timer fires: GET /status, then [fetchStatus]. *)
Definition poll (w : world) (pg : page) : world * page :=
  let (r, w') := dispatch env (get_req py"/status") w in
  match reply_body r with
  | Some body => (w', fetch_status body pg)
  | None => (w', pg)
  end.

(** A button: POST to its route, then the alert. *)
Definition click (path : pystr) (msg : pystr) (w : world) (pg : page) : world * page :=
  (snd (dispatch env (post_req path []) w), alert msg pg).

Inductive sys_step : world * page -> world * page -> Prop :=
| sys_provider (w : world) (pg : page) (rq : request) :
    sys_step (w, pg) (snd (dispatch env rq w), pg)
| sys_poll (w : world) (pg : page) :
    sys_step (w, pg) (poll w pg)
| sys_connect (w : world) (pg : page) :
    sys_step (w, pg) (click py"/connect" py"Call connected to Steve." w pg)
| sys_reject (w : world) (pg : page) :
    sys_step (w, pg) (click py"/reject" py"Call rejected." w pg).

(** The form values Werkzeug hands over are Python strings: code points
    below 0x110000. *)
Definition valid_form (f : form) : Prop := Forall (fun kv => valid_str kv.2) f.

(** ** The page's requests in flight

    [fetch] is asynchronous and [setInterval] does not wait for the
    previous [fetchStatus]: a poll's request reaches the server at one
    moment, and its reply is handled later; the replies of overlapping
    polls can be handled in any order.  Each request is handled whole
    when it reaches the server (requests in turn); the buttons stay one
    step each. *)
Record async_sys : Type := {
  a_world : world;
  a_page : page;
  a_inflight : list (list N)   (** bodies of /status replies not yet handled *)
}.

Inductive async_step : async_sys -> async_sys -> Prop :=
| async_provider (w : world) (pg : page) (fl : list (list N)) (rq : request) :
    valid_form (req_form rq) ->
    async_step {| a_world := w; a_page := pg; a_inflight := fl |}
               {| a_world := snd (dispatch env rq w); a_page := pg; a_inflight := fl |}
| async_send (w : world) (pg : page) (fl : list (list N)) :
    async_step {| a_world := w; a_page := pg; a_inflight := fl |}
               {| a_world := snd (dispatch env (get_req py"/status") w); a_page := pg;
                  a_inflight := fl ++ option_list (reply_body (fst (dispatch env (get_req py"/status") w))) |}
| async_deliver (w : world) (pg : page) (fl : list (list N)) (i : nat) (body : list N) :
    fl !! i = Some body ->
    async_step {| a_world := w; a_page := pg; a_inflight := fl |}
               {| a_world := w; a_page := fetch_status body pg; a_inflight := delete i fl |}
| async_connect (w : world) (pg : page) (fl : list (list N)) :
    async_step {| a_world := w; a_page := pg; a_inflight := fl |}
               {| a_world := fst (click py"/connect" py"Call connected to Steve." w pg);
                  a_page := snd (click py"/connect" py"Call connected to Steve." w pg); a_inflight := fl |}
| async_reject (w : world) (pg : page) (fl : list (list N)) :
    async_step {| a_world := w; a_page := pg; a_inflight := fl |}
               {| a_world := fst (click py"/reject" py"Call rejected." w pg);
                  a_page := snd (click py"/reject" py"Call rejected." w pg); a_inflight := fl |}.

End System.

(** A store whose strings are Python strings. *)
Definition store_valid (c : call_state) : Prop := valid_opt (call_from c) /\ valid_opt (call_speech c).

(** What the page should show for a stored value: its UTF-16 units, or
    the placeholder when it is absent or empty. *)
Definition shown (o : option pystr) (placeholder : list N) : list N :=
  match o with
  | Some ((_ :: _) as s) => utf16 s
  | _ => placeholder
  end.

(** ** What the page shows *)

Lemma js_or_text_opt (o : option pystr) (d : list N) :
  js_or_text (Defined (js_of_json (json_of_opt o))) d = shown o d.
Proof.
  destruct o as [[|c s]|]; [done | | done].
  cbn [json_of_opt js_of_json shown utf16 flat_map js_or_text].
  unfold utf16_char. by destruct (c <? 65536).
Qed.

Lemma js_get_call_items (c : call_state) :
  js_get (js_of_json (JObj (call_items c))) py"from" = Defined (js_of_json (json_of_opt (call_from c))) /\
  js_get (js_of_json (JObj (call_items c))) py"speech" = Defined (js_of_json (json_of_opt (call_speech c))).
Proof. split; reflexivity. Qed.

Lemma fetch_status_jsonify (c : call_state) (pg : page) :
  store_valid c ->
  fetch_status (jsonify_body c) pg =
  {| from_text := shown (call_from c) py"None"; speech_text := shown (call_speech c) py"Waiting...";
     alerts := alerts pg |}.
Proof.
  intros [Hf Hs]. unfold fetch_status, jsonify_body. rewrite sort_keys_call_items.
  rewrite js_parse_flat_obj by (done || by apply call_items_flat).
  destruct (js_get_call_items c) as [-> ->].
  by rewrite !js_or_text_opt.
Qed.

Section DashboardProperties.
Context `{PyUpper}.
Variable env : environ.

(** C14: one tick of the dashboard's timer shows the store: the caller's
    number and speech in UTF-16, or "None" and "Waiting..." when a value
    is absent or empty; the alerts and the server's world are unchanged. *)
Theorem poll_shows_store (w : world) (pg : page) :
  valid_opt (call_from (latest_call w)) -> valid_opt (call_speech (latest_call w)) ->
  poll env w pg =
  (w, {| from_text := shown (call_from (latest_call w)) py"None";
         speech_text := shown (call_speech (latest_call w)) py"Waiting...";
         alerts := alerts pg |}).
Proof.
  intros Hf Hs. unfold poll. rewrite dispatch_get_status. cbn [reply_body].
  by rewrite fetch_status_jsonify.
Qed.

End DashboardProperties.

(** C15: the page can show one caller while the connect button acts on
    another.  The store keeps only the latest call and the button carries
    no call identity, so after caller A is screened and shown, a second
    screened caller B replaces A in the store before the next tick; the
    operator, still reading A's number, clicks connect and the status of
    B's call becomes "answered". *)
Theorem stale_page_connects_other_caller :
  let env := {| TWILIO_PHONE_NUMBER := None; STEVE_PHONE_NUMBER := Some py"+15550000000" |} in
  exists w pg,
    rtc (sys_step env) (world_init, page_init) (w, pg) /\
    from_text pg = py"+15551111111" /\
    speech_text pg = py"It's Alice" /\
    call_from (latest_call w) = Some py"+15552222222" /\
    call_speech (latest_call w) = Some py"It's Bob" /\
    call_status (latest_call w) = answered.
Proof.
  intros env. do 2 eexists. split.
  - eapply rtc_l.
    { apply (sys_provider env _ _ (post_req py"/screen"
               [(py"SpeechResult", py"It's Alice"); (py"From", py"+15551111111")])). }
    eapply rtc_l; [apply sys_poll|].
    eapply rtc_l.
    { apply (sys_provider env _ _ (post_req py"/screen"
               [(py"SpeechResult", py"It's Bob"); (py"From", py"+15552222222")])). }
    eapply rtc_l; [apply sys_connect|].
    apply rtc_refl.
  - vm_compute. repeat split.
Qed.

Lemma poll_shows_store_witness :
  let env := {| TWILIO_PHONE_NUMBER := None; STEVE_PHONE_NUMBER := None |} in
  let w := {| latest_call := {| call_from := Some py"+15551234567"; call_speech := Some [];
                                call_status := waiting |};
              stdout := [] |} in
  valid_opt (call_from (latest_call w)) /\ valid_opt (call_speech (latest_call w)) /\
  poll env w page_init =
  (w, {| from_text := utf16 py"+15551234567"; speech_text := py"Waiting..."; alerts := [] |}).
Proof.
  intros env w.
  assert (Hf : valid_opt (call_from (latest_call w))) by apply lit_valid.
  assert (Hs : valid_opt (call_speech (latest_call w))) by constructor.
  split; [exact Hf|]. split; [exact Hs|].
  apply (poll_shows_store env w page_init Hf Hs).
Defined.

(** C27: with overlapping polls the page can go back to an older caller.
    Caller A is screened and a poll takes A's store; caller B is screened
    and a second poll takes B's store; the browser handles B's reply, then
    A's.  No reply is pending any more, the store holds B, and the page
    shows A until the next tick. *)
Theorem out_of_order_polls_show_stale_caller :
  let env := {| TWILIO_PHONE_NUMBER := None; STEVE_PHONE_NUMBER := None |} in
  exists s,
    rtc (async_step env) {| a_world := world_init; a_page := page_init; a_inflight := [] |} s /\
    a_inflight s = [] /\
    from_text (a_page s) = py"+15551111111" /\
    call_from (latest_call (a_world s)) = Some py"+15552222222".
Proof.
  intros env. eexists. split.
  - eapply rtc_l.
    { apply (async_provider env _ _ _ (post_req py"/screen"
               [(py"SpeechResult", py"It's Alice"); (py"From", py"+15551111111")])).
      repeat constructor; apply lit_valid. }
    eapply rtc_l; [apply async_send|].
    eapply rtc_l.
    { apply (async_provider env _ _ _ (post_req py"/screen"
               [(py"SpeechResult", py"It's Bob"); (py"From", py"+15552222222")])).
      repeat constructor; apply lit_valid. }
    eapply rtc_l; [apply async_send|].
    eapply rtc_l; [apply (async_deliver env _ _ _ 1); reflexivity|].
    eapply rtc_l; [apply (async_deliver env _ _ _ 0); reflexivity|].
    apply rtc_refl.
  - vm_compute. repeat split.
Qed.
