(* ===== verification/Threads.v ===== *)
(** * Requests handled on threads, with and without a lock

    [app.run] (src/main.py, line 123) starts Werkzeug's development
    server, which handles each request on its own thread; the threads
    share [latest_call] and switch between bytecodes.  A view is split
    into its atomic actions on shared state, in the source's order: each
    [print], each single-key assignment into [latest_call], and the read
    of the dict by [jsonify] (CPython's encoder copies the items in one
    call, so the read is one snapshot).

    [request_actions] gives the actions of any request, routed as
    [dispatch] routes it; [exec] runs them alone and is the sequential
    server ([exec_request], [threads_refine_views]).  A configuration is
    the world and the threads in flight; [tstep] runs the next action of
    any one thread, and finds the torn snapshots of C16 and C17.

    [lstep] is the fix the design notes ask for: one lock held across each
    view (it is not in the source).  Every interleaving of either kind
    terminates.  With the lock, every snapshot is a store of the
    sequential server (the invariant [linv], C24), and every run is
    serializable (C23): it never deadlocks, and once all actions have run
    there is an order of the requests ([serve]) in which the sequential
    [run] ends in the same world and gives every thread the snapshot it
    took (the invariant [sinv], which records the order in which the
    threads finished). *)

From stdpp Require Import base list relations.
From Stdlib Require Import NArith String Lia.
From S2P Require Import Prelude PyStr Form TwiML CallState Handlers Server.

Inductive action : Type :=
| APrint (line : pystr)
| AWrite (f : call_state -> call_state)
| ARead.

(** A thread: the actions left, and the snapshot its read took. *)
Record thread : Type := {
  t_actions : list action;
  t_seen : option call_state
}.

Definition run_action (a : action) (w : world) (seen : option call_state)
    : world * option call_state :=
  match a with
  | APrint l => (print l w, seen)
  | AWrite f => (update_call f w, seen)
  | ARead => (w, Some (latest_call w))
  end.

(** The actions of [screen] (lines 42-50). *)
Definition screen_actions (f : form) : list action :=
  let speech_result := form_get_default f py"SpeechResult" py"No speech detected" in
  let from_number := form_get f py"From" in
  [APrint (py"Caller said: " ++ speech_result);
   AWrite (set_from from_number);
   AWrite (set_speech (Some speech_result));
   AWrite (set_status waiting)].

(** [connect_call] and [reject_call] (lines 60, 70) and [get_status] (79). *)
Definition connect_actions : list action := [AWrite (set_status answered)].
Definition reject_actions : list action := [AWrite (set_status rejected)].
Definition status_actions : list action := [ARead].

Definition new_thread (acts : list action) : thread := {| t_actions := acts; t_seen := None |}.

(** A thread run alone to completion. *)
Fixpoint exec (acts : list action) (w : world) (seen : option call_state)
    : world * option call_state :=
  match acts with
  | [] => (w, seen)
  | a :: acts' => let (w', seen') := run_action a w seen in exec acts' w' seen'
  end.

Record config : Type := {
  c_world : world;
  c_threads : list thread
}.

(** Thread [i] runs its next action. *)
Inductive tstep : config -> config -> Prop :=
| tstep_run (w : world) (ts : list thread) (i : nat) (t : thread) (a : action) (rest : list action) :
    ts !! i = Some t -> t_actions t = a :: rest ->
    tstep {| c_world := w; c_threads := ts |}
          {| c_world := fst (run_action a w (t_seen t));
             c_threads := <[i := {| t_actions := rest;
                                    t_seen := snd (run_action a w (t_seen t)) |}]> ts |}.

(** ** Every request as a thread *)

(** The actions of [voice] (lines 17-23): its one or two prints (the
    exception on a missing From comes after the first). *)
Definition voice_actions `{PyUpper} (f : form) : list action :=
  let from_number := form_get f py"From" in
  let caller_name := form_get_default f py"CallerName" py"Unknown" in
  APrint (incoming_line from_number caller_name) ::
  match from_number with
  | None => []
  | Some num =>
      if py_startswith num py"+100" || py_contains py"VOIP" (py_upper caller_name)
      then [APrint rejected_line] else []
  end.

Definition view_actions `{PyUpper} (v : view) (f : form) : list action :=
  match v with
  | VVoice => voice_actions f
  | VScreen => screen_actions f
  | VConnect => connect_actions
  | VReject => reject_actions
  | VStatus => status_actions
  | VDashboard => []
  end.

(** The thread of a request: Flask's routing as in [dispatch], then the
    actions of the view; 404, 405 and OPTIONS touch nothing. *)
Definition request_actions `{PyUpper} (rq : request) : list action :=
  match match_rule (req_path rq) with
  | None => []
  | Some r =>
      if bool_decide (req_method rq = OPTIONS) then []
      else if bool_decide (req_method rq ∈ rule_allowed r) then view_actions (rule_view r) (req_form rq)
      else []
  end.

(** The actions still to run in a list of threads. *)
Definition pending (ts : list thread) : nat := sum_list_with (fun t => List.length (t_actions t)) ts.

(** ** The lock the design notes ask for

    The same threads, with one lock around each view: a thread takes the
    lock with its first action, when no one holds it, and gives it back
    with its last one.  [l_lock] is the thread holding it. *)
Record lconfig : Type := {
  l_world : world;
  l_threads : list thread;
  l_lock : option nat
}.

Inductive lstep : lconfig -> lconfig -> Prop :=
| lstep_run (w : world) (ts : list thread) (lk : option nat) (i : nat) (t : thread)
    (a : action) (rest : list action) :
    ts !! i = Some t -> t_actions t = a :: rest -> (lk = None \/ lk = Some i) ->
    lstep {| l_world := w; l_threads := ts; l_lock := lk |}
          {| l_world := fst (run_action a w (t_seen t));
             l_threads := <[i := {| t_actions := rest;
                                    t_seen := snd (run_action a w (t_seen t)) |}]> ts;
             l_lock := match rest with [] => None | _ => Some i end |}.

(** Requests handed to threads, none started, the lock free. *)
Definition linit `{PyUpper} (w : world) (rqs : list request) : lconfig :=
  {| l_world := w; l_threads := map (fun rq => new_thread (request_actions rq)) rqs; l_lock := None |}.

(** The snapshot a reply carries: the store [jsonify] wrote. *)
Definition json_snapshot (rp : reply) : option call_state :=
  match rp with JsonReply c => Some c | _ => None end.

(** ** The invariant of the locked server *)

Definition is_read (a : action) : bool := match a with ARead => true | _ => false end.

Section LockInvariant.
Context `{PyUpper}.
Variable env : environ.

(** A snapshot is the store of a world the sequential server reaches. *)
Definition seen_ok (t : thread) : Prop :=
  forall c, t_seen t = Some c -> exists w, reachable env w /\ c = latest_call w.

(** A thread that does not hold the lock has not started or is done. *)
Definition idle (t : thread) : Prop :=
  t_actions t = [] \/ exists rq, t = new_thread (request_actions rq).

(** Without the lock holder, the world is a reachable one; with it, the
    world is that of its request's first actions run alone from one. *)
Definition holder_ok (w0 : world) (cfg : lconfig) : Prop :=
  match l_lock cfg with
  | None => l_world cfg = w0
  | Some i => exists t rq pre, l_threads cfg !! i = Some t /\
      request_actions rq = pre ++ t_actions t /\ t_actions t <> [] /\
      exec pre w0 None = (l_world cfg, t_seen t)
  end.

Definition linv (cfg : lconfig) : Prop :=
  exists w0, reachable env w0 /\ holder_ok w0 cfg /\
  (forall i t, l_threads cfg !! i = Some t -> l_lock cfg <> Some i -> idle t) /\
  (forall i t, l_threads cfg !! i = Some t -> seen_ok t).

End LockInvariant.

(** ** Serial orders

    A locked run is compared with the sequential server serving the same
    requests one after the other in some order [ord], a list of thread
    indices ([serve]).  [sinv] relates a configuration to the order in
    which the threads finished so far: the world is the sequential
    world of those requests, then the lock holder's first actions; every
    finished thread's snapshot is the JSON snapshot of its sequential
    reply; every other thread has not started. *)

#[export] Instance thread_inhabited : Inhabited thread := populate (new_thread []).
#[export] Instance request_inhabited : Inhabited request := populate (get_req []).

Definition serve (rqs : list request) (ord : list nat) : list request := (rqs !!!.) <$> ord.

Section SerialInvariant.
Context `{PyUpper}.
Variable env : environ.
Variable w : world.
Variable rqs : list request.

Definition sinv (cfg : lconfig) (ord : list nat) : Prop :=
  let w0 := snd (run env (serve rqs ord) w) in
  NoDup ord /\ List.length (l_threads cfg) = List.length rqs /\
  (forall j, j ∈ ord -> j < List.length rqs) /\
  match l_lock cfg with
  | None => l_world cfg = w0
  | Some i => (i ∉ ord) /\ exists t pre, l_threads cfg !! i = Some t /\
      request_actions (rqs !!! i) = pre ++ t_actions t /\ t_actions t <> [] /\
      exec pre w0 None = (l_world cfg, t_seen t)
  end /\
  (forall j t, l_threads cfg !! j = Some t -> j ∉ ord -> l_lock cfg <> Some j ->
     t = new_thread (request_actions (rqs !!! j))) /\
  (forall j t, l_threads cfg !! j = Some t -> j ∈ ord -> t_actions t = []) /\
  (fun j => t_seen (l_threads cfg !!! j)) <$> ord = json_snapshot <$> fst (run env (serve rqs ord) w).

End SerialInvariant.

(** ** Properties *)

Local Ltac run_thread i :=
  eapply rtc_l; [eapply (tstep_run _ _ i); reflexivity |]; cbn -[lit].

(** C16: on threads, the invariant of the sequential server fails.  A poll
    that runs between the first two writes of the first [screen] sees a
    number with no speech, a store no sequence of whole requests produces
    (compare [reachable_store_inv]). *)
Theorem threaded_poll_breaks_store_inv :
  let f := [(py"From", py"+15551234567"); (py"SpeechResult", py"Hi it's Bob")] in
  exists cfg c,
    rtc tstep {| c_world := world_init;
                 c_threads := [new_thread (screen_actions f); new_thread status_actions] |} cfg /\
    c_threads cfg !! 1%nat = Some {| t_actions := []; t_seen := Some c |} /\
    ~ store_inv c.
Proof.
  intros f. do 2 eexists. split.
  - run_thread 0%nat. run_thread 0%nat. run_thread 1%nat. apply rtc_refl.
  - split; [reflexivity|]. unfold store_inv. cbn. intros Hinv. by specialize (Hinv eq_refl).
Qed.

(** C17: on threads, a poll can show the number of a new caller with the
    speech of the previous one: [screen] writes "from" before "speech",
    and the snapshot falls between the two writes. *)
Theorem threaded_poll_mixes_callers :
  let fa := [(py"From", py"+15551111111"); (py"SpeechResult", py"It's Alice")] in
  let fb := [(py"From", py"+15552222222"); (py"SpeechResult", py"It's Bob")] in
  exists cfg c,
    rtc tstep {| c_world := snd (screen fa world_init);
                 c_threads := [new_thread (screen_actions fb); new_thread status_actions] |} cfg /\
    c_threads cfg !! 1%nat = Some {| t_actions := []; t_seen := Some c |} /\
    call_from c = Some py"+15552222222" /\ call_speech c = Some py"It's Alice".
Proof.
  intros fa fb. do 2 eexists. split.
  - run_thread 0%nat. run_thread 0%nat. run_thread 1%nat. apply rtc_refl.
  - repeat split.
Qed.

(** ** Interleavings: every thread as its request, termination and the lock *)

Lemma exec_app (p q : list action) (w : world) (s : option call_state) :
  exec (p ++ q) w s = let (w', s') := exec p w s in exec q w' s'.
Proof.
  revert w s. induction p as [|a p IH]; intros w s; [done|]. cbn [app exec].
  destruct (run_action a w s). apply IH.
Qed.

Lemma exec_snoc (p : list action) (a : action) (w : world) (s : option call_state) :
  exec (p ++ [a]) w s = run_action a (fst (exec p w s)) (snd (exec p w s)).
Proof. rewrite exec_app. destruct (exec p w s) as [w' s']. cbn. by destruct (run_action a w' s'). Qed.

Lemma pending_insert (ts : list thread) (i : nat) (t t' : thread) :
  ts !! i = Some t ->
  pending (<[i:=t']> ts) + List.length (t_actions t) = pending ts + List.length (t_actions t').
Proof.
  unfold pending. revert i. induction ts as [|u ts IH]; intros [|i] Hi; try done.
  - injection Hi as ->. cbn. lia.
  - simpl in Hi |- *. specialize (IH i Hi). rewrite <-!Nat.add_assoc, IH. lia.
Qed.

Lemma tstep_pending (cfg cfg' : config) :
  tstep cfg cfg' -> pending (c_threads cfg') < pending (c_threads cfg).
Proof.
  intros [w ts i t a rest Hi Ha]. cbn [c_threads].
  pose proof (pending_insert ts i t {| t_actions := rest; t_seen := snd (run_action a w (t_seen t)) |} Hi) as Hp.
  rewrite Ha in Hp. cbn [List.length t_actions] in Hp. lia.
Qed.

Lemma lstep_pending (cfg cfg' : lconfig) :
  lstep cfg cfg' -> pending (l_threads cfg') < pending (l_threads cfg).
Proof.
  intros [w ts lk i t a rest Hi Ha _]. cbn [l_threads].
  pose proof (pending_insert ts i t {| t_actions := rest; t_seen := snd (run_action a w (t_seen t)) |} Hi) as Hp.
  rewrite Ha in Hp. cbn [List.length t_actions] in Hp. lia.
Qed.

Lemma pending_pos (ts : list thread) :
  pending ts <> 0 -> exists i t a rest, ts !! i = Some t /\ t_actions t = a :: rest.
Proof.
  unfold pending. induction ts as [|u ts IH]; [done|]. cbn [sum_list_with].
  destruct (t_actions u) as [|a rest] eqn:E; cbn [List.length].
  - intros Hp. destruct IH as (i & t & a & rest & Hi & Ht); [lia|]. by exists (S i), t, a, rest.
  - intros _. by exists 0, u, a, rest.
Qed.

Lemma pending_zero (ts : list thread) (i : nat) (t : thread) :
  pending ts = 0 -> ts !! i = Some t -> t_actions t = [].
Proof.
  unfold pending. revert i. induction ts as [|u ts IH]; intros [|i] Hp Hi; try done;
    cbn [sum_list_with] in Hp.
  - injection Hi as <-. by destruct (t_actions u).
  - apply (IH i); [lia | done].
Qed.

(** Every interleaving of request threads, with or without the lock, is
    finite: each step runs one of the finitely many pending actions. *)
Theorem request_threads_terminate :
  well_founded (fun cfg' cfg => tstep cfg cfg') /\ well_founded (fun cfg' cfg => lstep cfg cfg').
Proof.
  split.
  - apply (wf_projected (<) (fun cfg => pending (c_threads cfg))); [intros ??; apply tstep_pending | apply lt_wf].
  - apply (wf_projected (<) (fun cfg => pending (l_threads cfg))); [intros ??; apply lstep_pending | apply lt_wf].
Qed.

Section LockProofs.
Context `{PyUpper}.
Variable env : environ.

(** Flask routes a request and its thread the same way; on each view the
    actions do what the view does. *)
Local Ltac route_views :=
  unfold request_actions, dispatch; destruct (match_rule _) as [r|]; [|done];
  repeat case_bool_decide; try done; destruct (rule_view r); cbn [view_actions run_view]; try done;
  unfold voice_actions, voice; destruct (form_get _ _); [|done]; by destruct (_ || _).

Lemma exec_request (rq : request) (w : world) :
  fst (exec (request_actions rq) w None) = snd (dispatch env rq w).
Proof. route_views. Qed.

(** The atomic actions are a decomposition of the application: the
    thread of any request, run alone, leaves the world [dispatch] leaves,
    and its snapshot of the store is the one the JSON reply carries (none
    for the other replies). *)
Theorem threads_refine_views (rq : request) (w : world) :
  exec (request_actions rq) w None =
    (snd (dispatch env rq w), json_snapshot (fst (dispatch env rq w))).
Proof. route_views. Qed.

Lemma request_actions_read (rq : request) (pre rest : list action) :
  request_actions rq = pre ++ ARead :: rest -> pre = [].
Proof.
  assert (Hr : request_actions rq = [ARead] \/ forallb (fun a => negb (is_read a)) (request_actions rq) = true).
  { unfold request_actions. destruct (match_rule _) as [r|]; [|by right].
    repeat case_bool_decide; try by right. destruct (rule_view r); cbn [view_actions]; try by (left + right).
    right. unfold voice_actions. destruct (form_get _ _); [destruct (_ || _)|]; done. }
  intros Heq. rewrite Heq in Hr. destruct Hr as [Hr|Hr].
  - destruct pre as [|a [|b pre]]; [done | discriminate | discriminate].
  - rewrite forallb_app in Hr. apply andb_prop in Hr as [_ Hr]. discriminate.
Qed.

Lemma run_action_seen (a : action) (w : world) (s : option call_state) :
  snd (run_action a w s) = s \/ (a = ARead /\ snd (run_action a w s) = Some (latest_call w)).
Proof. destruct a; auto. Qed.

Lemma linit_linv (w : world) (rqs : list request) : reachable env w -> linv env (linit w rqs).
Proof.
  intros Hw. exists w. split; [done|]. split; [done|]. cbn [linit l_threads].
  split; intros i t Hi; apply list_lookup_fmap_Some_1 in Hi as (rq & -> & _).
  - intros _. right. eauto.
  - by intros c.
Qed.

Lemma lstep_linv (cfg cfg' : lconfig) : lstep cfg cfg' -> linv env cfg -> linv env cfg'.
Proof.
  intros [w ts lk i t a rest Hi Ha Hlk] (w0 & Hr & Hh & Hidle & Hseen). cbn [l_threads l_lock l_world] in *.
  (* the thread's actions so far, from a reachable world *)
  assert (exists rq pre, request_actions rq = pre ++ a :: rest /\ exec pre w0 None = (w, t_seen t))
    as (rq & pre & Hrq & Hpre).
  { destruct Hlk as [-> | ->]; cbn in Hh.
    - destruct (Hidle i t Hi ltac:(done)) as [Hd | (rq & ->)]; [by rewrite Ha in Hd|].
      exists rq, []. cbn in Ha |- *. by rewrite Ha, Hh.
    - destruct Hh as (t' & rq & pre & Ht' & Hrq & _ & Hpre). rewrite Hi in Ht'. injection Ht' as <-.
      exists rq, pre. by rewrite <-Ha. }
  set (t' := {| t_actions := rest; t_seen := snd (run_action a w (t_seen t)) |}).
  assert (Hexec : exec (pre ++ [a]) w0 None = run_action a w (t_seen t)) by by rewrite exec_snoc, Hpre.
  assert (Hseen' : seen_ok env t').
  { destruct (run_action_seen a w (t_seen t)) as [Hs | [-> Hs]]; unfold seen_ok; cbn [t' t_seen].
    - rewrite Hs. apply (Hseen i t Hi).
    - apply request_actions_read in Hrq as ->. injection Hpre as <- _.
      rewrite Hs. intros c [= <-]. eauto. }
  assert (Hold : forall j, j <> i -> lk <> Some j) by (intros j Hj; destruct Hlk as [-> | ->]; congruence).
  assert (Hseen2 : forall j u, <[i:=t']> ts !! j = Some u -> seen_ok env u).
  { intros j u Hj. destruct (decide (i = j)) as [<-|Hne].
    - rewrite list_lookup_insert_eq in Hj by (eapply lookup_lt_Some; eauto). by injection Hj as <-.
    - rewrite list_lookup_insert_ne in Hj by done. eauto. }
  destruct rest as [|b rest'].
  - exists (fst (run_action a w (t_seen t))). cbn [l_threads l_lock l_world]. split.
    { rewrite <-Hexec, <-Hrq, exec_request. by constructor. }
    split; [done|]. split; [|done]. intros j u Hj _. destruct (decide (i = j)) as [<-|Hne].
    + rewrite list_lookup_insert_eq in Hj by (eapply lookup_lt_Some; eauto). injection Hj as <-. by left.
    + rewrite list_lookup_insert_ne in Hj by done. apply (Hidle j); [done | by apply Hold].
  - exists w0. cbn [l_threads l_lock l_world]. split; [done|]. split.
    { unfold holder_ok. cbn [l_lock l_threads l_world]. exists t', rq, (pre ++ [a]). cbn [t' t_actions t_seen].
      rewrite list_lookup_insert_eq by (eapply lookup_lt_Some; eauto).
      rewrite Hrq, <-app_assoc, Hexec. by destruct (run_action a w (t_seen t)). }
    split; [|done]. intros j u Hj Hji. destruct (decide (i = j)) as [<-|Hne]; [done|].
    rewrite list_lookup_insert_ne in Hj by done. apply (Hidle j); [done | by apply Hold].
Qed.

Lemma rtc_lstep_linv (cfg cfg' : lconfig) : rtc lstep cfg cfg' -> linv env cfg -> linv env cfg'.
Proof. induction 1; eauto using lstep_linv. Qed.

(** C24: refinement: with the lock, every snapshot a request takes of
    the store, in any interleaving, is the store of a world the
    sequential server reaches; the torn states of
    [threaded_poll_breaks_store_inv] cannot be observed. *)
Theorem locked_polls_see_reachable (w : world) (rqs : list request) (cfg : lconfig)
    (i : nat) (t : thread) (c : call_state) :
  reachable env w -> rtc lstep (linit w rqs) cfg ->
  l_threads cfg !! i = Some t -> t_seen t = Some c ->
  exists w', reachable env w' /\ latest_call w' = c.
Proof.
  intros Hw Hr Hi Hc. destruct (rtc_lstep_linv _ _ Hr (linit_linv w rqs Hw)) as (w0 & _ & _ & _ & Hs).
  destruct (Hs i t Hi c Hc) as (w' & ? & ->). eauto.
Qed.
End LockProofs.

Section SerialProofs.
Context `{PyUpper}.
Variable env : environ.

#[local] Set Warnings "-clear-no-such-hyp".

Lemma run_app (xs ys : list request) (w : world) :
  run env (xs ++ ys) w =
    (fst (run env xs w) ++ fst (run env ys (snd (run env xs w))), snd (run env ys (snd (run env xs w)))).
Proof.
  revert w. induction xs as [|rq xs IH]; intros w; cbn [app run fst snd].
  - by destruct (run env ys w).
  - destruct (dispatch env rq w) as [r w1]. rewrite IH. by destruct (run env xs w1).
Qed.

Lemma run_snoc_pair (xs : list request) (rq : request) (w : world) :
  run env (xs ++ [rq]) w =
    (fst (run env xs w) ++ [fst (dispatch env rq (snd (run env xs w)))],
     snd (dispatch env rq (snd (run env xs w)))).
Proof. rewrite run_app. cbn [run]. by destruct (dispatch env rq _). Qed.

Lemma empty_request_dispatch (rq : request) (w : world) :
  request_actions rq = [] -> snd (dispatch env rq w) = w /\ json_snapshot (fst (dispatch env rq w)) = None.
Proof. intros He. pose proof (threads_refine_views env rq w) as Hx. rewrite He in Hx. by injection Hx as <- <-. Qed.

Lemma seen_insert_ne (ts : list thread) (i : nat) (t' : thread) (ord : list nat) :
  i ∉ ord ->
  (fun j => t_seen (<[i:=t']> ts !!! j)) <$> ord = (fun j => t_seen (ts !!! j)) <$> ord.
Proof.
  intros Hi. apply list_fmap_ext. intros k j Hk. rewrite list_lookup_total_insert_ne; [done|].
  intros ->. apply Hi. by eapply list_elem_of_lookup_2.
Qed.


Variable w : world.
Variable rqs : list request.

Lemma sinv_init : sinv env w rqs (linit w rqs) [].
Proof.
  unfold sinv, linit. cbn [l_threads l_lock l_world]. rewrite length_map.
  split; [constructor|]. split; [done|]. split; [set_solver|]. split; [done|].
  split; [|split; [set_solver | done]].
  intros j t Hj _ _. apply list_lookup_fmap_Some_1 in Hj as (rq & -> & Hj).
  by rewrite (list_lookup_total_correct _ _ _ Hj).
Qed.

Lemma serve_app (xs ys : list nat) : serve rqs (xs ++ ys) = serve rqs xs ++ serve rqs ys.
Proof. apply fmap_app. Qed.

Lemma sinv_step (cfg cfg' : lconfig) (ord : list nat) :
  lstep cfg cfg' -> sinv env w rqs cfg ord -> exists ord', sinv env w rqs cfg' ord'.
Proof.
  intros [w1 ts lk i t a rest Hi Ha Hlk] (Hnd & Hlen & Hlt & Hh & Hfresh & Hdone & Hal).
  cbn [l_threads l_lock l_world] in *. set (w0 := snd (run env (serve rqs ord) w)) in *.
  assert (Hpre : (i ∉ ord) /\ exists pre, request_actions (rqs !!! i) = pre ++ a :: rest /\
                 exec pre w0 None = (w1, t_seen t)).
  { destruct Hlk as [-> | ->].
    - assert (Hni : i ∉ ord) by (intros Hin; by rewrite (Hdone i t Hi Hin) in Ha).
      split; [done|]. rewrite (Hfresh i t Hi Hni ltac:(done)) in Ha |- *.
      exists []. cbn in Ha |- *. by rewrite Ha, Hh.
    - destruct Hh as (Hni & t0 & pre & Ht0 & Hrq & _ & Hex). rewrite Hi in Ht0. injection Ht0 as <-.
      split; [done|]. exists pre. by rewrite <-Ha. }
  destruct Hpre as (Hni & pre & Hrq & Hex).
  assert (Hilt : i < List.length ts) by (eapply lookup_lt_Some; eauto).
  assert (Hexec : exec (pre ++ [a]) w0 None = run_action a w1 (t_seen t)) by by rewrite exec_snoc, Hex.
  assert (Hlk' : forall j, j <> i -> lk <> Some j) by (intros j Hj; destruct Hlk as [-> | ->]; congruence).
  set (t' := {| t_actions := rest; t_seen := snd (run_action a w1 (t_seen t)) |}).
  destruct rest as [|b rest'].
  - exists (ord ++ [i]).
    assert (Hfull : run_action a w1 (t_seen t) =
      (snd (dispatch env (rqs !!! i) w0), json_snapshot (fst (dispatch env (rqs !!! i) w0)))).
    { by rewrite <-Hexec, <-threads_refine_views, Hrq. }
    unfold sinv. cbn [l_threads l_lock l_world]. rewrite serve_app. change (serve rqs [i]) with [rqs !!! i]. rewrite run_snoc_pair.
    split; [apply NoDup_app; split; [done|]; split; [set_solver | apply NoDup_singleton]|].
    split; [by rewrite length_insert|].
    split; [intros j; rewrite elem_of_app, list_elem_of_singleton; intros [Hj | ->]; [auto | lia]|].
    split; [by rewrite Hfull|].
    split; [|split].
    + intros j u Hj Hnj _. rewrite list_lookup_insert_ne in Hj by set_solver.
      apply (Hfresh j u Hj); [set_solver | apply Hlk'; set_solver].
    + intros j u Hj. rewrite elem_of_app, list_elem_of_singleton. intros [Hin | ->].
      * rewrite list_lookup_insert_ne in Hj by set_solver. eauto.
      * rewrite list_lookup_insert_eq in Hj by done. by injection Hj as <-.
    + rewrite !fmap_app, seen_insert_ne, Hal by done. cbn [fmap list_fmap fst].
      rewrite list_lookup_total_insert_eq by done. subst t'. cbn [t_seen]. rewrite Hfull, fmap_app. reflexivity.
  - exists ord. unfold sinv. cbn [l_threads l_lock l_world]. fold w0.
    split; [done|]. split; [by rewrite length_insert|]. split; [done|].
    split; [split; [done|]; exists t', (pre ++ [a])|].
    { rewrite list_lookup_insert_eq by done. rewrite Hrq, <-app_assoc. split; [done|]. split; [done|].
      split; [done|]. rewrite Hexec. by destruct (run_action a w1 (t_seen t)). }
    split; [|split].
    + intros j u Hj Hnj Hji. assert (j <> i) by congruence.
      rewrite list_lookup_insert_ne in Hj by done. apply (Hfresh j u Hj Hnj), Hlk'. done.
    + intros j u Hj Hin. rewrite list_lookup_insert_ne in Hj by set_solver. eauto.
    + by rewrite seen_insert_ne.
Qed.

Lemma rtc_sinv (cfg : lconfig) : rtc lstep (linit w rqs) cfg -> exists ord, sinv env w rqs cfg ord.
Proof.
  apply (rtc_ind_r (fun cfg => exists ord, sinv env w rqs cfg ord)); [exists []; apply sinv_init|].
  intros cfg1 cfg2 _ Hs [ord Hi]. by eapply sinv_step.
Qed.

(** The lock holder always has an action left, so a configuration with
    pending actions can always move. *)
Lemma sinv_progress (cfg : lconfig) (ord : list nat) :
  sinv env w rqs cfg ord -> pending (l_threads cfg) <> 0 -> exists cfg', lstep cfg cfg'.
Proof.
  destruct cfg as [w1 ts [i|]]; intros (_ & _ & _ & Hh & _) Hp; cbn [l_threads l_lock] in *.
  - destruct Hh as (_ & t & pre & Hi & _ & Hne & _). destruct (t_actions t) as [|a rest] eqn:Ha; [done|].
    eexists. eapply lstep_run; [exact Hi | exact Ha | by right].
  - destruct (pending_pos ts Hp) as (i & t & a & rest & Hi & Ha).
    eexists. eapply lstep_run; [exact Hi | exact Ha | by left].
Qed.

(** Requests with no action (404, 405, OPTIONS, the page) can be served
    anywhere in the order: they keep the world and carry no snapshot. *)
Lemma serve_empty_requests (ts : list thread) (ms : list nat) (w' : world) :
  (forall j, j ∈ ms -> request_actions (rqs !!! j) = [] /\ t_seen (ts !!! j) = None) ->
  snd (run env (serve rqs ms) w') = w' /\
  json_snapshot <$> fst (run env (serve rqs ms) w') = (fun j => t_seen (ts !!! j)) <$> ms.
Proof.
  revert w'. induction ms as [|j ms IH]; intros w' Hms; [done|].
  destruct (Hms j ltac:(set_solver)) as [He Hs].
  destruct (empty_request_dispatch (rqs !!! j) w' He) as [Hw Hj].
  destruct (IH w') as [IHw IHs]; [set_solver|].
  change (serve rqs (j :: ms)) with ([rqs !!! j] ++ serve rqs ms).
  rewrite run_app. cbn [run fst snd app]. destruct (dispatch env (rqs !!! j) w') as [r w1].
  cbn [fst snd] in Hw, Hj |- *. subst w1. rewrite IHw. split; [done|]. rewrite fmap_app. cbn [fmap list_fmap app]. by rewrite Hs, Hj, IHs.
Qed.

Lemma sinv_final (cfg : lconfig) (ord : list nat) :
  sinv env w rqs cfg ord -> pending (l_threads cfg) = 0 ->
  exists ord', ord' ≡ₚ seq 0 (List.length rqs) /\
    l_world cfg = snd (run env (serve rqs ord') w) /\
    (fun j => t_seen (l_threads cfg !!! j)) <$> ord' = json_snapshot <$> fst (run env (serve rqs ord') w).
Proof.
  destruct cfg as [w1 ts lk]. intros (Hnd & Hlen & Hlt & Hh & Hfresh & _ & Hal) Hp. cbn [l_threads l_lock l_world] in *.
  destruct lk as [i|].
  { destruct Hh as (_ & t & pre & Hi & _ & Hne & _). by rewrite (pending_zero _ i t Hp Hi) in Hne. }
  set (ms := filter (fun j => j ∉ ord) (seq 0 (List.length rqs))).
  assert (Hms : forall j, j ∈ ms -> request_actions (rqs !!! j) = [] /\ t_seen (ts !!! j) = None).
  { intros j Hj. apply list_elem_of_filter in Hj as [Hnj Hj]. apply elem_of_seq in Hj.
    destruct (lookup_lt_is_Some_2 ts j) as [t Ht]; [lia|].
    pose proof (Hfresh j t Ht Hnj ltac:(done)) as Hft. rewrite (list_lookup_total_correct _ _ _ Ht).
    pose proof (pending_zero _ j t Hp Ht) as Hz. rewrite Hft in Hz |- *. done. }
  exists (ord ++ ms). split.
  - apply NoDup_Permutation; [apply NoDup_app; split; [done|]; split | apply NoDup_seq |].
    + intros x Hx Hm. apply list_elem_of_filter in Hm. naive_solver.
    + apply NoDup_filter, NoDup_seq.
    + intros x. unfold ms. rewrite elem_of_app, list_elem_of_filter, elem_of_seq.
      destruct (decide (x ∈ ord)) as [Hx|Hx]; [specialize (Hlt x Hx)|]; naive_solver lia.
  - rewrite serve_app, run_app. cbn [fst snd].
    destruct (serve_empty_requests ts ms (snd (run env (serve rqs ord) w)) Hms) as [Hw Hs].
    rewrite Hw, fmap_app, fmap_app, Hs, Hal. done.
Qed.
(** C23: serializability and freedom from deadlock under the lock.  In
    every run of the locked threads from any world, a configuration with
    actions left can always move; and once every action has run, there
    is an order of the requests in which the sequential server, serving
    them one at a time, ends in the same world and gives every request
    the snapshot its thread took (the JSON reply of each poll). *)
Theorem locked_runs_serializable (cfg : lconfig) :
  rtc lstep (linit w rqs) cfg ->
  (pending (l_threads cfg) <> 0 -> exists cfg', lstep cfg cfg') /\
  (pending (l_threads cfg) = 0 ->
   exists ord, ord ≡ₚ seq 0 (List.length rqs) /\
     l_world cfg = snd (run env (serve rqs ord) w) /\
     (fun j => t_seen (l_threads cfg !!! j)) <$> ord = json_snapshot <$> fst (run env (serve rqs ord) w)).
Proof.
  intros Hr. destruct (rtc_sinv cfg Hr) as [ord Hs].
  split; [by apply (sinv_progress cfg ord) | by apply (sinv_final cfg ord)].
Qed.
End SerialProofs.

Local Ltac lrun i :=
  eapply rtc_l; [eapply (lstep_run _ _ _ i); [reflexivity | reflexivity | (by left) || (by right)] |];
  cbn -[lit].

Lemma locked_polls_see_reachable_witness :
  let env := {| TWILIO_PHONE_NUMBER := None; STEVE_PHONE_NUMBER := None |} in
  let f := [(py"From", py"+15551234567"); (py"SpeechResult", py"Hi it's Bob")] in
  exists cfg t c,
    reachable env world_init /\
    rtc lstep (linit world_init [post_req py"/screen" f; get_req py"/status"]) cfg /\
    l_threads cfg !! 1%nat = Some t /\ t_seen t = Some c /\
    exists w', reachable env w' /\ latest_call w' = c.
Proof.
  intros env f. evar (cfg : lconfig).
  assert (Hr : rtc lstep (linit world_init [post_req py"/screen" f; get_req py"/status"]) cfg).
  { unfold cfg. lrun 0%nat. lrun 0%nat. lrun 0%nat. lrun 0%nat. lrun 1%nat. apply rtc_refl. }
  subst cfg. do 3 eexists. split; [constructor|]. split; [exact Hr|].
  split; [reflexivity|]. split; [reflexivity|].
  eapply (locked_polls_see_reachable env world_init _ _ 1%nat); [constructor | exact Hr | reflexivity | reflexivity].
Defined.


Lemma locked_runs_serializable_witness :
  let env := {| TWILIO_PHONE_NUMBER := None; STEVE_PHONE_NUMBER := None |} in
  let fa := [(py"From", py"+15551111111"); (py"SpeechResult", py"It's Alice")] in
  let fb := [(py"From", py"+15552222222"); (py"SpeechResult", py"It's Bob")] in
  let rqs := [post_req py"/screen" fa; get_req py"/status"; post_req py"/screen" fb] in
  exists cfg, rtc lstep (linit world_init rqs) cfg /\ pending (l_threads cfg) = 0%nat /\
    exists ord, ord ≡ₚ seq 0 (List.length rqs) /\
      l_world cfg = snd (run env (serve rqs ord) world_init) /\
      (fun j => t_seen (l_threads cfg !!! j)) <$> ord = json_snapshot <$> fst (run env (serve rqs ord) world_init).
Proof.
  intros env fa fb rqs. evar (cfg : lconfig).
  assert (Hr : rtc lstep (linit world_init rqs) cfg).
  { unfold cfg. lrun 0%nat. lrun 0%nat. lrun 0%nat. lrun 0%nat.
    lrun 2%nat. lrun 2%nat. lrun 2%nat. lrun 2%nat. lrun 1%nat. apply rtc_refl. }
  subst cfg. eexists. split; [exact Hr|]. split; [reflexivity|].
  apply (locked_runs_serializable env world_init rqs _ Hr). reflexivity.
Defined.
